(** * Semi-continuum model of unsaturated porous media flow

    A shallow embedding of [main.py]: the explicit time loop that updates
    saturation, capillary pressure (with hysteresis) and the face fluxes on
    a staggered grid, together with the intrinsic-permeability multiplier,
    the bottom boundary condition, the mass-balance report and the guard
    that stops the run.

    Numbers.  The arrays of the program hold float64 values.  They are
    modelled by real numbers: every arithmetic operation is the exact one,
    so rounding is outside this development.  The two places where the
    special float values matter are modelled explicitly: [np_power] (a
    power with a real exponent) and [np_divide] (the quotient printed by
    the mass-balance report, which may divide by zero).

    Arrays.  A dense array indexed by (y, z, x) is modelled by its indexing
    function.  Only the entries inside the shape of the array are
    meaningful; a slice assignment is a guarded update of the function. *)

From Stdlib Require Import Reals Lra Lia List Bool Arith ZArith.
Import ListNotations.
Local Open Scope R_scope.

(** ** Arrays and reductions *)

Abbreviation field3 := (nat -> nat -> nat -> R).

Definition zeros : field3 := fun _ _ _ => 0.
Definition ones : field3 := fun _ _ _ => 1.

(** [sum_upto n f] is f 0 + ... + f (n-1). *)
Fixpoint sum_upto (n : nat) (f : nat -> R) : R :=
  match n with
  | O => 0
  | S m => sum_upto m f + f m
  end.

(** [np.sum] of an array of shape (ny, nz, nx). *)
Definition np_sum (ny nz nx : nat) (A : field3) : R :=
  sum_upto ny (fun y => sum_upto nz (fun z => sum_upto nx (fun x => A y z x))).

(** [np.sum(A[:, z, :])]. *)
Definition np_sum_row (ny nx : nat) (A : field3) (z : nat) : R :=
  sum_upto ny (fun y => sum_upto nx (fun x => A y z x)).

(** [max_upto n f] is the greatest of f 0, ..., f n. *)
Fixpoint max_upto (n : nat) (f : nat -> R) : R :=
  match n with
  | O => f O
  | S m => Rmax (max_upto m f) (f (S m))
  end.

(** [np.amax] of an array of shape (ny, nz, nx) with no empty axis (numpy
    raises ValueError on an empty array). *)
Definition np_amax (ny nz nx : nat) (A : field3) : R :=
  max_upto (ny - 1)%nat (fun y =>
    max_upto (nz - 1)%nat (fun z =>
      max_upto (nx - 1)%nat (fun x => A y z x))).

(** Comparison masks: [a > b] as a boolean. *)
Definition Rgtb (a b : R) : bool := if Rlt_dec b a then true else false.

(** [x ** y] for a float exponent: exp (y ln x) on a positive base, and 0
    on the base 0 (the exponents of the program are positive).  On a
    negative base numpy yields nan; the model yields 0 there, and no
    theorem below relies on that value. *)
Definition np_power (x y : R) : R :=
  if Rlt_dec 0 x then Rpower x y else 0.

(** A float64 quotient as it is printed: IEEE division yields nan for 0/0
    and an infinity for a non-zero number over zero (numpy and cupy only
    warn).  The sign of the infinity is not recorded. *)
Inductive np_float : Type :=
| Finite (r : R)
| Inf
| NaN.

Definition np_divide (a b : R) : np_float :=
  if Req_EM_T b 0 then (if Req_EM_T a 0 then NaN else Inf)
  else Finite (a / b).

(** Python's [round(n / 2)] for an int [n >= 0]: ties go to the even
    neighbour. *)
Definition round_half (n : nat) : nat :=
  let q := (n / 2)%nat in
  if Nat.even n then q else if Nat.even q then q else (q + 1)%nat.

(** Python's [a % m] on floats, for m > 0. *)
Definition py_mod (a m : R) : R := a - IZR (Int_part (a / m)) * m.

(** ** Constants of the program *)

Definition dL : R := 0.25 * 0.01.
Definition dx_PAR : R := dL / 0.01.
Definition G : R := 9.81.
Definition THETA : R := 0.35.
Definition KAPPA : R := 2.293577981651376e-10.
Definition MU : R := 9e-4.
Definition RHO : R := 1000.
Definition MU_INVERSE : R := 1 / MU.
Definition RHO_G : R := RHO * G.
Definition Kps : R := 1e5.
Definition LAMBDA : R := 0.8.
Definition TIME_INTERVAL : R := 1.0.
Definition LIM_VALUE : R := 0.999.
Definition dtBase : R := 1e-3 * 0.25.
Definition dt : R := (dx_PAR ^ 2) * dtBase.
Definition RATIO : R := 1 / dx_PAR ^ 2.
Definition SM : R := dt / (THETA * dL).
Definition PRINT_MODULO : R := RATIO * (1 / dtBase) * TIME_INTERVAL.

(** ** Configuration

    The options a run is configured with.  [N_Y], [N_Z], [N_X] and
    [iteration] are computed by the program with [math.floor] and [round]
    from the extents of the medium and the simulated time; the development
    is parametric in their values.  [random_perm] is the noise field the
    multiplier is computed from (drawn, filtered or interpolated, or
    loaded from a file).  The module [retention_curves] is external to
    [main.py]: its two [calculate] methods are taken as parameters and
    applied cell by cell, and so is its constant [VanGenuchtenWet.N]. *)
Record Config : Type := mkConfig {
  N_Y : nat;
  N_Z : nat;
  N_X : nat;
  iteration : nat;
  S0 : R;
  Q0 : R;
  FLUX_FULL : bool;
  FLUX_MIDDLE : bool;
  SATURATION_RESIDUAL : R;
  WHICH_BRANCH_wet : bool;
  RANDOMIZATION_INTRINSIC_PERMEABILITY : bool;
  random_perm : field3;
  VanGenuchtenWet_N : R;
  retention_curve_wet : R -> R;
  retention_curve_drain : R -> R
}.

(** The state the loop carries from one iteration to the next. *)
Record State : Type := mkState {
  st_S : field3;
  st_P : field3;
  st_Q_X : field3;
  st_Q_Y : field3;
  st_Q_Z : field3;
  st_Q : field3;
  st_bound_flux : field3
}.

(** How the loop ends: after the last iteration, or with the exception of
    the guard, raised in iteration [k]. *)
Inductive outcome : Type :=
| Completed (st : State)
| Raised (k : nat) (st : State).

(** The entry of [multiply] for the noise value [r]: the array starts as
    [np.zeros_like(random_perm)] and is assigned under the masks
    [random_perm > 0] and [random_perm < 0]. *)
Definition multiply_entry (r : R) : R :=
  if Rgtb r 0 then 1 + r
  else if Rgtb 0 r then 1 / (1 - r)
  else 0.

Section Model.

Context (cfg : Config).

Definition M_Q : R := 1 - 1 / VanGenuchtenWet_N cfg.
Definition M_Q_inverse : R := 1 / M_Q.

(** *** Intrinsic permeability *)

Definition multiply : field3 :=
  if RANDOMIZATION_INTRINSIC_PERMEABILITY cfg
  then fun y z x => multiply_entry (random_perm cfg y z x)
  else ones.

Definition k_rnd : field3 := fun y z x => KAPPA * multiply y z x.
Definition k_rnd_sqrt : field3 := fun y z x => sqrt (k_rnd y z x).

(** The conductances of the faces between x and x+1, z and z+1, y and
    y+1. *)
Definition k_rnd_q1 : field3 :=
  fun y z x => MU_INVERSE * k_rnd_sqrt y z x * k_rnd_sqrt y z (x + 1)%nat.
Definition k_rnd_q2 : field3 :=
  fun y z x => MU_INVERSE * k_rnd_sqrt y z x * k_rnd_sqrt y (z + 1)%nat x.
Definition k_rnd_q3 : field3 :=
  fun y z x => MU_INVERSE * k_rnd_sqrt y z x * k_rnd_sqrt (y + 1)%nat z x.

(** *** Initialisation *)

Definition S0_ini : field3 := fun y z x => 1 * S0 cfg.

(** The top boundary condition.  In the second mode the program assigns
    to [Q_Z[pom_y:pom_y, 0, pom_x:pom_x + vec]]; the slice [pom_y:pom_y]
    is empty whatever [pom_y] is, so nothing is written. *)
Definition Q_Z_ini : field3 :=
  fun y z x =>
    if FLUX_FULL cfg && negb (FLUX_MIDDLE cfg) then
      if (z =? 0)%nat then Q0 cfg else 0
    else if negb (FLUX_FULL cfg) && FLUX_MIDDLE cfg then 0
    else if (y =? round_half (N_Y cfg))%nat && (z =? 0)%nat
            && (x =? round_half (N_X cfg))%nat
         then Q0 cfg else 0.

Definition P_ini : field3 :=
  fun y z x =>
    if WHICH_BRANCH_wet cfg then retention_curve_wet cfg (S0_ini y z x)
    else retention_curve_drain cfg (S0_ini y z x).

Definition bound_residual : field3 :=
  fun _ _ _ => 1 * SATURATION_RESIDUAL cfg.

Definition init : State :=
  {| st_S := S0_ini;
     st_P := P_ini;
     st_Q_X := zeros;
     st_Q_Y := zeros;
     st_Q_Z := Q_Z_ini;
     st_Q := zeros;
     st_bound_flux := zeros |}.

(** *** One iteration *)

Section Step.

Variable st : State.

(** Saturation update. *)
Definition Q_new : field3 :=
  fun y z x =>
    st_Q_X st y z x - st_Q_X st y z (x + 1)%nat
    + st_Q_Y st y z x - st_Q_Y st (y + 1)%nat z x
    + st_Q_Z st y z x - st_Q_Z st y (z + 1)%nat x.

(** [S_new = S + SM * Q], before the bottom boundary condition. *)
Definition S_flow : field3 :=
  fun y z x => st_S st y z x + SM * Q_new y z x.

Definition bound_lim : field3 :=
  fun y _ x => Rmin (S_flow y (N_Z cfg - 1)%nat x) (bound_residual y O x).

(** [S_new] after the assignment to the slice [N_Z - 1 : N_Z]. *)
Definition S_new : field3 :=
  fun y z x =>
    if (z + 1 =? N_Z cfg)%nat
    then Rmax (S_flow y z x + SM * st_bound_flux st y O x) (bound_lim y O x)
    else S_flow y z x.

(** Pressure update. *)
Definition P_relaxed : field3 :=
  fun y z x => st_P st y z x + Kps * (S_new y z x - st_S st y z x).

Definition P_wet : field3 :=
  fun y z x => retention_curve_wet cfg (st_S st y z x).
Definition P_drain : field3 :=
  fun y z x => retention_curve_drain cfg (st_S st y z x).

Definition wet (y z x : nat) : bool := Rgtb (S_new y z x - st_S st y z x) 0.
Definition drain (y z x : nat) : bool := Rgtb (st_S st y z x - S_new y z x) 0.

Definition P_clamped_wet : field3 :=
  fun y z x =>
    if wet y z x then Rmin (P_relaxed y z x) (P_wet y z x)
    else P_relaxed y z x.

Definition P_new : field3 :=
  fun y z x =>
    if drain y z x then Rmax (P_clamped_wet y z x) (P_drain y z x)
    else P_clamped_wet y z x.

(** Flux update. *)
Definition relative_permeability (s : R) : R :=
  np_power s LAMBDA * (1 - np_power (1 - np_power s M_Q_inverse) M_Q) ^ 2.

Definition perm : field3 := fun y z x => relative_permeability (S_new y z x).
Definition perm_sqrt : field3 := fun y z x => sqrt (perm y z x).

Definition Q_X_new : field3 :=
  fun y z x =>
    if (1 <=? x)%nat && (x <? N_X cfg)%nat then
      k_rnd_q1 y z (x - 1)%nat * perm_sqrt y z (x - 1)%nat * perm_sqrt y z x
      * (- ((P_new y z x - P_new y z (x - 1)%nat) / dL))
    else st_Q_X st y z x.

Definition Q_Y_new : field3 :=
  fun y z x =>
    if (1 <=? y)%nat && (y <? N_Y cfg)%nat then
      k_rnd_q3 (y - 1)%nat z x * perm_sqrt (y - 1)%nat z x * perm_sqrt y z x
      * (- ((P_new y z x - P_new (y - 1)%nat z x) / dL))
    else st_Q_Y st y z x.

Definition Q_Z_new : field3 :=
  fun y z x =>
    if (1 <=? z)%nat && (z <? N_Z cfg)%nat then
      k_rnd_q2 y (z - 1)%nat x * perm_sqrt y (z - 1)%nat x * perm_sqrt y z x
      * (RHO_G - ((P_new y z x - P_new y (z - 1)%nat x) / dL))
    else st_Q_Z st y z x.

(** Flux at the bottom boundary, stored in row 0 of [bound_flux]. *)
Definition bound_flux_new : field3 :=
  fun y z x =>
    if (z =? 0)%nat then
      MU_INVERSE * k_rnd y (N_Z cfg - 1)%nat x * perm y (N_Z cfg - 1)%nat x
      * (RHO_G - ((0 - P_new y (N_Z cfg - 1)%nat x) / dL))
    else st_bound_flux st y z x.

Definition step : State :=
  {| st_S := S_new;
     st_P := P_new;
     st_Q_X := Q_X_new;
     st_Q_Y := Q_Y_new;
     st_Q_Z := Q_Z_new;
     st_Q := Q_new;
     st_bound_flux := bound_flux_new |}.

End Step.

(** *** The guard and the loop *)

(** [np.abs(np.amax(S)) > LIM_VALUE]. *)
Definition diverged (st : State) : bool :=
  Rgtb (Rabs (np_amax (N_Y cfg) (N_Z cfg) (N_X cfg) (st_S st))) LIM_VALUE.

(** [loop n k st] runs the iterations k+1, ..., k+n from the state [st]. *)
Fixpoint loop (n k : nat) (st : State) : outcome :=
  match n with
  | O => Completed st
  | S m =>
      let st' := step st in
      if diverged st' then Raised (S k) st' else loop m (S k) st'
  end.

Definition simulate : outcome := loop (iteration cfg) O init.

(** The state at the end of the body of iteration [k], the guard left
    aside. *)
Fixpoint state_at (k : nat) : State :=
  match k with
  | O => init
  | S j => step (state_at j)
  end.

(** *** Mass balance report

    Printed in the iterations [k] with [k % PRINT_MODULO == 0]. *)

Definition checkpoint (k : nat) : bool :=
  if Req_EM_T (py_mod (INR k) PRINT_MODULO) 0 then true else false.

Definition flowed_in_real (st : State) : R :=
  np_sum (N_Y cfg) (N_Z cfg) (N_X cfg) (st_S st)
  - np_sum (N_Y cfg) (N_Z cfg) (N_X cfg) S0_ini.

Definition flowed_in_should (k : nat) (st : State) : R :=
  INR k * SM * np_sum_row (N_Y cfg) (N_X cfg) (st_Q_Z st) O.

Definition error_abs (k : nat) (st : State) : R :=
  Rabs (flowed_in_real st - flowed_in_should k st).

Definition error_rel (k : nat) (st : State) : np_float :=
  np_divide (error_abs k st) (flowed_in_should k st).

End Model.

(** ** The flux law in the words of the specification

    These definitions follow the text of the specification, not the
    program; the flux computed by [step] is compared with them below. *)

Inductive axis : Type := AxisX | AxisY | AxisZ.

(** RHO G on the depth axis, 0 on the two lateral axes. *)
Definition gravityTerm (a : axis) : R :=
  match a with
  | AxisZ => RHO * G
  | AxisX | AxisY => 0
  end.

(** (1 / viscosity) sqrt(k_i) sqrt(k_j). *)
Definition conductance_face (k_i k_j : R) : R :=
  (1 / MU) * sqrt k_i * sqrt k_j.

(** S^lambda (1 - (1 - S^(1/m))^m)^2. *)
Definition mualem_van_genuchten (lambda m s : R) : R :=
  np_power s lambda * (1 - np_power (1 - np_power s (1 / m)) m) ^ 2.

(** conductance sqrt(perm_i) sqrt(perm_j) (gravityTerm - deltaP / dL). *)
Definition darcy_face_flux
  (a : axis) (conductance perm_i perm_j deltaP : R) : R :=
  conductance * (sqrt perm_i * sqrt perm_j) * (gravityTerm a - deltaP / dL).

(** ** Configurations

    [main_config] holds the values [main.py] is written with: a medium of
    0.10 m x 0.10 m x 0.30 m in blocks of 0.25 cm, 20 s of simulated
    time, flux over the whole top, a residual saturation of 1.05 at the
    bottom, randomised permeability.  The noise field, the constant N and
    the two retention curves are left open. *)
Definition main_config
  (noise : field3) (n : R) (curve_wet curve_drain : R -> R) : Config :=
  {| N_Y := 40; N_Z := 120; N_X := 40;
     iteration := 1280 * 1000;
     S0 := 0.01;
     Q0 := 8e-5;
     FLUX_FULL := true;
     FLUX_MIDDLE := false;
     SATURATION_RESIDUAL := 1.05;
     WHICH_BRANCH_wet := true;
     RANDOMIZATION_INTRINSIC_PERMEABILITY := true;
     random_perm := noise;
     VanGenuchtenWet_N := n;
     retention_curve_wet := curve_wet;
     retention_curve_drain := curve_drain |}.

(** A curve far below - RHO_G dL on the whole range of saturations. *)
Definition curve_deep (s : R) : R := 1000 * (s - 2).

(** A curve above - RHO_G dL: the capillary pressure of a coarse medium. *)
Definition curve_shallow (s : R) : R := s - 1.

(** The configuration of the program with a uniform noise, N = 5 and the
    curve [curve_deep] for both branches. *)
Definition main_sample : Config :=
  main_config (fun _ _ _ => 0.3) 5 curve_deep curve_deep.

(** Small configurations on which the statements below are exercised,
    without randomisation; the same curve serves as wetting and as
    draining branch. *)
Definition sample (ny nz nx it : nat) (s0 q0 res : R) (curve : R -> R)
  : Config :=
  {| N_Y := ny; N_Z := nz; N_X := nx;
     iteration := it;
     S0 := s0;
     Q0 := q0;
     FLUX_FULL := true;
     FLUX_MIDDLE := false;
     SATURATION_RESIDUAL := res;
     WHICH_BRANCH_wet := true;
     RANDOMIZATION_INTRINSIC_PERMEABILITY := false;
     random_perm := zeros;
     VanGenuchtenWet_N := 5;
     retention_curve_wet := curve;
     retention_curve_drain := curve |}.

(** A column of two cells under the flux of the program, two iterations. *)
Definition column : Config := sample 1 2 1 2 0.01 8e-5 1.05 curve_deep.

(** A column of two cells with no flux at the top. *)
Definition still_column : Config := sample 1 2 1 2 0.01 0 1.05 curve_deep.

(** A single cell with no flux at the top, run up to the first report. *)
Definition still_cell : Config :=
  sample 1 1 1 (64 * 1000) 0.01 0 1.05 curve_deep.

(** A column of two cells from which water is drawn at the top. *)
Definition drawn_column : Config := sample 1 2 1 1 0.01 (-1) 1.05 curve_deep.

(** A single cell of a coarse medium, no flux at the top. *)
Definition coarse_cell : Config := sample 1 1 1 2 0.01 0 1.05 curve_shallow.

(** A column of two cells under a flux large enough to fill the upper
    cell in one iteration. *)
Definition flooded_column : Config :=
  sample 1 2 1 2 0.01 100 1.05 curve_deep.

(** A single cell under the flux of the program, two iterations. *)
Definition wet_cell : Config := sample 1 1 1 2 0.01 8e-5 1.05 curve_deep.

(** The configuration of the program with a layer of cells, at depth
    index 60, whose noise value is exactly 0. *)
Definition main_layered : Config :=
  main_config (fun _ z _ => if (z =? 60)%nat then 0 else 0.3) 5
    curve_deep curve_deep.

(** A single cell run with the flags of the second mode of the top
    boundary condition (flux in the middle). *)
Definition middle_cell : Config :=
  {| N_Y := 1; N_Z := 1; N_X := 1;
     iteration := 64 * 1000;
     S0 := 0.01;
     Q0 := 8e-5;
     FLUX_FULL := false;
     FLUX_MIDDLE := true;
     SATURATION_RESIDUAL := 1.05;
     WHICH_BRANCH_wet := true;
     RANDOMIZATION_INTRINSIC_PERMEABILITY := false;
     random_perm := zeros;
     VanGenuchtenWet_N := 5;
     retention_curve_wet := curve_deep;
     retention_curve_drain := curve_deep |}.

(** The configuration of the program with both flags of the top boundary
    condition off: flux into the middle block only. *)
Definition main_single : Config :=
  {| N_Y := 40; N_Z := 120; N_X := 40;
     iteration := 1280 * 1000;
     S0 := 0.01;
     Q0 := 8e-5;
     FLUX_FULL := false;
     FLUX_MIDDLE := false;
     SATURATION_RESIDUAL := 1.05;
     WHICH_BRANCH_wet := true;
     RANDOMIZATION_INTRINSIC_PERMEABILITY := false;
     random_perm := zeros;
     VanGenuchtenWet_N := 5;
     retention_curve_wet := curve_deep;
     retention_curve_drain := curve_deep |}.

(** A pair of curves bounded on all of R: [curve_deep] cut off at -2000
    and at -1000 (it is [curve_deep] on saturations between 0 and 1). *)
Definition curve_capped (s : R) : R :=
  Rmax (-2000) (Rmin (curve_deep s) (-1000)).

Definition capped_column : Config :=
  sample 1 2 1 2 0.01 8e-5 1.05 curve_capped.

(** ** Snapshots

    In an iteration [k] with a report the arrays are saved under the
    index [t = round(k * dt) - 1]; the time plot then loads the files of
    the indices in [range(REALTIME)]. *)

Definition REALTIME : nat := 20.

(** Python's [round] of a float to an int: the nearest integer, ties to
    the even one. *)
Definition py_round (x : R) : Z :=
  let n := Int_part x in
  let f := frac_part x in
  if Rlt_dec f (1 / 2) then n
  else if Rlt_dec (1 / 2) f then (n + 1)%Z
  else if Z.even n then n else (n + 1)%Z.

Definition snapshot_index (k : nat) : Z := (py_round (INR k * dt) - 1)%Z.

(** ** States at rest

    A state in which nothing moves: saturation and pressure are the
    initial ones, no face carries a flux and the bottom boundary flux is
    not positive. *)
Definition resting (cfg : Config) (st : State) : Prop :=
  (forall y z x, st_S st y z x = S0_ini cfg y z x)
  /\ (forall y z x, st_P st y z x = P_ini cfg y z x)
  /\ (forall y z x, st_Q_X st y z x = 0)
  /\ (forall y z x, st_Q_Y st y z x = 0)
  /\ (forall y z x, st_Q_Z st y z x = 0)
  /\ (forall y x, st_bound_flux st y 0 x <= 0).

(** The faces on the boundary of the domain, the top ones apart, carry no
    flux. *)
Definition closed_sides (cfg : Config) (st : State) : Prop :=
  forall y z x,
    st_Q_Z st y (N_Z cfg) x = 0
    /\ st_Q_X st y z 0 = 0
    /\ st_Q_X st y z (N_X cfg) = 0
    /\ st_Q_Y st 0 z x = 0
    /\ st_Q_Y st (N_Y cfg) z x = 0.

(** No flux through the six faces of a cell nor, for a cell of the bottom
    row, through the boundary below it. *)
Definition sealed (cfg : Config) (st : State) (y z x : nat) : Prop :=
  st_Q_X st y z x = 0 /\ st_Q_X st y z (x + 1) = 0
  /\ st_Q_Y st y z x = 0 /\ st_Q_Y st (y + 1) z x = 0
  /\ st_Q_Z st y z x = 0 /\ st_Q_Z st y (z + 1) x = 0
  /\ ((z + 1 = N_Z cfg)%nat -> st_bound_flux st y 0 x = 0).

(** ** Tactics *)

(** Case analysis on the minima and maxima of the goal and context. *)
Ltac minmax :=
  unfold Rmin, Rmax in *;
  repeat match goal with
         | |- context [Rle_dec ?a ?b] => destruct (Rle_dec a b)
         | H : context [Rle_dec ?a ?b] |- _ => destruct (Rle_dec a b)
         end;
  try lra.

(** Unfolds the sums over the cells of a single-cell sample. *)
Ltac sum_cells :=
  cbn [sum_upto N_Y N_Z N_X still_cell coarse_cell sample].

(** Unfolds the cells of a state of a sample run down to arithmetic. *)
Ltac run_cells :=
  cbv [state_at step init st_S st_P st_Q_X st_Q_Y st_Q_Z st_Q st_bound_flux
       S_new S_flow Q_new bound_lim bound_residual S0_ini Q_Z_ini P_ini zeros
       P_new P_clamped_wet P_relaxed P_wet P_drain
       N_Y N_Z N_X S0 Q0 FLUX_FULL FLUX_MIDDLE SATURATION_RESIDUAL
       WHICH_BRANCH_wet retention_curve_wet retention_curve_drain
       sample column still_column still_cell drawn_column coarse_cell
       flooded_column wet_cell capped_column middle_cell
       Nat.eqb Nat.add Nat.sub Nat.leb Nat.ltb andb negb orb].

(** * Basic facts *)

(** ** Constants *)

Lemma dL_pos : 0 < dL.
Proof. unfold dL; lra. Qed.

Lemma Kps_pos : 0 < Kps.
Proof. unfold Kps; lra. Qed.

Lemma SM_pos : 0 < SM.
Proof.
  unfold SM, dt, dx_PAR, dtBase, THETA, dL.
  apply Rdiv_lt_0_compat; lra.
Qed.

Lemma SM_value : SM = 1 / 56.
Proof. unfold SM, dt, dx_PAR, dtBase, THETA, dL. lra. Qed.

Lemma MU_INVERSE_pos : 0 < MU_INVERSE.
Proof. unfold MU_INVERSE, MU. apply Rdiv_lt_0_compat; lra. Qed.

Lemma KAPPA_pos : 0 < KAPPA.
Proof. unfold KAPPA; lra. Qed.

Lemma RHO_G_value : RHO_G = 9810.
Proof. unfold RHO_G, RHO, G; lra. Qed.

Lemma PRINT_MODULO_value : PRINT_MODULO = 64000.
Proof.
  unfold PRINT_MODULO, RATIO, dx_PAR, dtBase, TIME_INTERVAL, dL. lra.
Qed.

(** ** Comparisons, minimum and maximum *)

Lemma Rgtb_true (a b : R) : Rgtb a b = true <-> b < a.
Proof.
  unfold Rgtb; destruct (Rlt_dec b a); split; intros; try easy.
Qed.

Lemma Rgtb_false (a b : R) : Rgtb a b = false <-> a <= b.
Proof.
  unfold Rgtb; destruct (Rlt_dec b a); split; intros; try easy; lra.
Qed.

(** ** Sums *)

Lemma sum_upto_ext (n : nat) (f g : nat -> R) :
  (forall i, (i < n)%nat -> f i = g i) -> sum_upto n f = sum_upto n g.
Proof.
  induction n as [|n IH]; intros H; simpl; [reflexivity|].
  rewrite IH by (intros; apply H; lia).
  rewrite H by lia. reflexivity.
Qed.

Lemma sum_upto_plus (n : nat) (f g : nat -> R) :
  sum_upto n (fun i => f i + g i) = sum_upto n f + sum_upto n g.
Proof. induction n as [|n IH]; simpl; [|rewrite IH]; lra. Qed.


Lemma sum_upto_zero (n : nat) (f : nat -> R) :
  (forall i, (i < n)%nat -> f i = 0) -> sum_upto n f = 0.
Proof.
  induction n as [|n IH]; intros H; simpl; [reflexivity|].
  rewrite IH by (intros; apply H; lia).
  rewrite H by lia. lra.
Qed.

(** The differences of consecutive faces along one axis telescope. *)
Lemma sum_upto_telescope (n : nat) (f : nat -> R) :
  sum_upto n (fun i => f i - f (i + 1)%nat) = f O - f n.
Proof.
  induction n as [|n IH]; simpl; [lra|].
  rewrite IH. replace (n + 1)%nat with (S n) by lia. lra.
Qed.

(** Exchange of two nested sums. *)
Lemma sum_upto_swap (n m : nat) (f : nat -> nat -> R) :
  sum_upto n (fun i => sum_upto m (fun j => f i j))
  = sum_upto m (fun j => sum_upto n (fun i => f i j)).
Proof.
  induction n as [|n IH]; simpl.
  - symmetry; apply sum_upto_zero; reflexivity.
  - rewrite IH, <- sum_upto_plus. reflexivity.
Qed.

(** ** Maxima *)



(** ** Powers and the relative permeability *)

Lemma np_power_nonneg (x y : R) : 0 <= np_power x y.
Proof.
  unfold np_power; destruct (Rlt_dec 0 x); [|lra].
  unfold Rpower. left; apply exp_pos.
Qed.

Lemma np_power_pos (x y : R) : 0 < x -> 0 < np_power x y.
Proof.
  intros Hx. unfold np_power; destruct (Rlt_dec 0 x); [|lra].
  unfold Rpower. apply exp_pos.
Qed.

Lemma Rpower_one_base (y : R) : Rpower 1 y = 1.
Proof. unfold Rpower. rewrite ln_1, Rmult_0_r. apply exp_0. Qed.

Lemma np_power_lt_1 (x y : R) : 0 < x < 1 -> 0 < y -> np_power x y < 1.
Proof.
  intros Hx Hy. unfold np_power; destruct (Rlt_dec 0 x); [|lra].
  rewrite <- (Rpower_one_base y). apply Rlt_Rpower_l; lra.
Qed.

Lemma relative_permeability_nonneg (cfg : Config) (s : R) :
  0 <= relative_permeability cfg s.
Proof.
  unfold relative_permeability.
  apply Rmult_le_pos; [apply np_power_nonneg | apply pow2_ge_0].
Qed.

(** On 0 < s < 1 and for 0 < M_Q the relative permeability lies strictly
    between 0 and 1. *)
Lemma relative_permeability_bounds (cfg : Config) (s : R) :
  0 < M_Q cfg -> 0 < s < 1 ->
  0 < relative_permeability cfg s < 1.
Proof.
  intros Hm Hs. unfold relative_permeability.
  assert (Hl : 0 < LAMBDA) by (unfold LAMBDA; lra).
  assert (Hmi : 0 < M_Q_inverse cfg)
    by (unfold M_Q_inverse; apply Rdiv_lt_0_compat; lra).
  pose proof (np_power_pos s LAMBDA (proj1 Hs)) as Ha0.
  pose proof (np_power_lt_1 s LAMBDA Hs Hl) as Ha1.
  pose proof (np_power_pos s (M_Q_inverse cfg) (proj1 Hs)) as Hb0.
  pose proof (np_power_lt_1 s (M_Q_inverse cfg) Hs Hmi) as Hb1.
  set (a := np_power s LAMBDA) in *.
  set (b := np_power s (M_Q_inverse cfg)) in *.
  assert (Hc : 0 < 1 - b < 1) by lra.
  pose proof (np_power_pos (1 - b) (M_Q cfg) (proj1 Hc)) as Hd0.
  pose proof (np_power_lt_1 (1 - b) (M_Q cfg) Hc Hm) as Hd1.
  set (d := np_power (1 - b) (M_Q cfg)) in *.
  assert (He : 0 < (1 - d) ^ 2 < 1) by (simpl; split; nra).
  set (e := (1 - d) ^ 2) in *.
  split; nra.
Qed.

(** * The intrinsic-permeability multiplier *)

Lemma multiply_entry_pos (r : R) : 0 < r -> multiply_entry r = 1 + r.
Proof.
  intros Hr. unfold multiply_entry.
  destruct (Rgtb r 0) eqn:E; [reflexivity|].
  apply Rgtb_false in E; lra.
Qed.

Lemma multiply_entry_neg (r : R) : r < 0 -> multiply_entry r = 1 / (1 - r).
Proof.
  intros Hr. unfold multiply_entry.
  destruct (Rgtb r 0) eqn:E; [apply Rgtb_true in E; lra|].
  destruct (Rgtb 0 r) eqn:E'; [reflexivity|].
  apply Rgtb_false in E'; lra.
Qed.

(** Away from 0 the multiplier is the one described, and positive. *)
Lemma multiply_entry_nonzero_noise (r : R) :
  r <> 0 -> 0 < multiply_entry r.
Proof.
  intros Hr. destruct (Rtotal_order r 0) as [H|[H|H]]; [|contradiction|].
  - rewrite multiply_entry_neg by assumption.
    apply Rdiv_lt_0_compat; lra.
  - rewrite multiply_entry_pos by lra. lra.
Qed.

Lemma multiply_entry_nonneg (r : R) : 0 <= multiply_entry r.
Proof.
  destruct (Req_dec r 0) as [->|Hr].
  - unfold multiply_entry.
    destruct (Rgtb 0 0) eqn:E; [apply Rgtb_true in E; lra | lra].
  - left; apply multiply_entry_nonzero_noise; assumption.
Qed.

(** C8 (the program at the noise value 0).  The entry of [multiply] for
    the noise value 0 is 0: neither mask selects it, so it keeps the value
    written by [np.zeros_like].  It is not 1, and it is not positive. *)
Theorem multiply_entry_at_zero :
  multiply_entry 0 = 0 /\ multiply_entry 0 <> 1 /\ ~ 0 < multiply_entry 0.
Proof.
  assert (H : multiply_entry 0 = 0).
  { unfold multiply_entry.
    destruct (Rgtb 0 0) eqn:E; [apply Rgtb_true in E; lra | reflexivity]. }
  rewrite H. repeat split; lra.
Qed.

(** * The flux law *)

Lemma Q_X_new_interior (cfg : Config) (st : State) (y z x : nat) :
  (x + 1 < N_X cfg)%nat ->
  Q_X_new cfg st y z (x + 1)
  = k_rnd_q1 cfg y z x * perm_sqrt cfg st y z x
    * perm_sqrt cfg st y z (x + 1)
    * (- ((P_new cfg st y z (x + 1) - P_new cfg st y z x) / dL)).
Proof.
  intros Hx. unfold Q_X_new.
  replace (x + 1 - 1)%nat with x by lia.
  destruct (Nat.leb_spec 1 (x + 1)); [|lia].
  destruct (Nat.ltb_spec (x + 1) (N_X cfg)); [|lia].
  reflexivity.
Qed.

Lemma Q_Y_new_interior (cfg : Config) (st : State) (y z x : nat) :
  (y + 1 < N_Y cfg)%nat ->
  Q_Y_new cfg st (y + 1) z x
  = k_rnd_q3 cfg y z x * perm_sqrt cfg st y z x
    * perm_sqrt cfg st (y + 1) z x
    * (- ((P_new cfg st (y + 1) z x - P_new cfg st y z x) / dL)).
Proof.
  intros Hy. unfold Q_Y_new.
  replace (y + 1 - 1)%nat with y by lia.
  destruct (Nat.leb_spec 1 (y + 1)); [|lia].
  destruct (Nat.ltb_spec (y + 1) (N_Y cfg)); [|lia].
  reflexivity.
Qed.

Lemma Q_Z_new_interior (cfg : Config) (st : State) (y z x : nat) :
  (z + 1 < N_Z cfg)%nat ->
  Q_Z_new cfg st y (z + 1) x
  = k_rnd_q2 cfg y z x * perm_sqrt cfg st y z x
    * perm_sqrt cfg st y (z + 1) x
    * (RHO_G - ((P_new cfg st y (z + 1) x - P_new cfg st y z x) / dL)).
Proof.
  intros Hz. unfold Q_Z_new.
  replace (z + 1 - 1)%nat with z by lia.
  destruct (Nat.leb_spec 1 (z + 1)); [|lia].
  destruct (Nat.ltb_spec (z + 1) (N_Z cfg)); [|lia].
  reflexivity.
Qed.

(** C1.  At the end of every iteration, the flux on every interior face
    is the Darcy flux of the specification: the conductance of the face,
    (1 / MU) sqrt(k_i) sqrt(k_j), times sqrt(perm_i) sqrt(perm_j), times
    the gravity term (RHO G along z, 0 along x and y) minus the pressure
    difference towards the greater index over dL; perm is the closure
    S^LAMBDA (1 - (1 - S^(1/M_Q))^M_Q)^2 at the saturation just updated,
    and the pressures are the ones just updated. *)
Theorem face_flux_law (cfg : Config) (k y z x : nat) :
  (y < N_Y cfg)%nat -> (z < N_Z cfg)%nat -> (x < N_X cfg)%nat ->
  let st := state_at cfg (S k) in
  let K := k_rnd cfg in
  let perm_at y z x :=
    mualem_van_genuchten LAMBDA (M_Q cfg) (st_S st y z x) in
  ((x + 1 < N_X cfg)%nat ->
   st_Q_X st y z (x + 1)
   = darcy_face_flux AxisX
       (conductance_face (K y z x) (K y z (x + 1)%nat))
       (perm_at y z x) (perm_at y z (x + 1)%nat)
       (st_P st y z (x + 1) - st_P st y z x))
  /\ ((y + 1 < N_Y cfg)%nat ->
      st_Q_Y st (y + 1) z x
      = darcy_face_flux AxisY
          (conductance_face (K y z x) (K (y + 1)%nat z x))
          (perm_at y z x) (perm_at (y + 1)%nat z x)
          (st_P st (y + 1) z x - st_P st y z x))
  /\ ((z + 1 < N_Z cfg)%nat ->
      st_Q_Z st y (z + 1) x
      = darcy_face_flux AxisZ
          (conductance_face (K y z x) (K y (z + 1)%nat x))
          (perm_at y z x) (perm_at y (z + 1)%nat x)
          (st_P st y (z + 1) x - st_P st y z x)).
Proof.
  intros Hy Hz Hx st K perm_at.
  subst st; cbn [state_at step st_Q_X st_Q_Y st_Q_Z st_S st_P].
  repeat split; intros Hface.
  - rewrite Q_X_new_interior by assumption.
    unfold darcy_face_flux, conductance_face, gravityTerm, k_rnd_q1,
      k_rnd_sqrt, perm_sqrt, perm, relative_permeability, M_Q_inverse,
      MU_INVERSE, perm_at, mualem_van_genuchten, K.
    cbn [state_at step st_S]. ring.
  - rewrite Q_Y_new_interior by assumption.
    unfold darcy_face_flux, conductance_face, gravityTerm, k_rnd_q3,
      k_rnd_sqrt, perm_sqrt, perm, relative_permeability, M_Q_inverse,
      MU_INVERSE, perm_at, mualem_van_genuchten, K.
    cbn [state_at step st_S]. ring.
  - rewrite Q_Z_new_interior by assumption.
    unfold darcy_face_flux, conductance_face, gravityTerm, k_rnd_q2,
      k_rnd_sqrt, perm_sqrt, perm, relative_permeability, M_Q_inverse,
      MU_INVERSE, RHO_G, perm_at, mualem_van_genuchten, K.
    cbn [state_at step st_S]. ring.
Qed.

Lemma face_flux_law_witness :
    let cfg := main_sample in
    let st := state_at cfg 1 in
    let perm_at y z x :=
      mualem_van_genuchten LAMBDA (M_Q cfg) (st_S st y z x) in
    st_Q_X st 0 0 1
    = darcy_face_flux AxisX
        (conductance_face (k_rnd cfg 0 0 0) (k_rnd cfg 0 0 1))
        (perm_at 0 0 0)%nat (perm_at 0 0 1)%nat
        (st_P st 0 0 1 - st_P st 0 0 0)
    /\ st_Q_Y st 1 0 0
       = darcy_face_flux AxisY
           (conductance_face (k_rnd cfg 0 0 0) (k_rnd cfg 1 0 0))
           (perm_at 0 0 0)%nat (perm_at 1 0 0)%nat
           (st_P st 1 0 0 - st_P st 0 0 0)
    /\ st_Q_Z st 0 1 0
       = darcy_face_flux AxisZ
           (conductance_face (k_rnd cfg 0 0 0) (k_rnd cfg 0 1 0))
           (perm_at 0 0 0)%nat (perm_at 0 1 0)%nat
           (st_P st 0 1 0 - st_P st 0 0 0).
Proof.
  intros cfg st perm_at.
  assert (Hy : (0 < N_Y cfg)%nat) by (simpl; lia).
  assert (Hz : (0 < N_Z cfg)%nat) by (simpl; lia).
  assert (Hx : (0 < N_X cfg)%nat) by (simpl; lia).
  destruct (face_flux_law cfg 0 0 0 0 Hy Hz Hx) as (HX & HY & HZ).
  repeat split;
    [apply HX | apply HY | apply HZ]; simpl; lia.
Defined.

(** * The pressure update *)

Section PressureUpdate.

Context (cfg : Config) (st : State) (y z x : nat).

Lemma P_new_wetting :
  st_S st y z x < S_new cfg st y z x ->
  P_new cfg st y z x
  = Rmin (P_relaxed cfg st y z x) (P_wet cfg st y z x).
Proof.
  intros H. unfold P_new, P_clamped_wet, wet, drain.
  destruct (Rgtb (st_S st y z x - S_new cfg st y z x) 0) eqn:Ed;
    [apply Rgtb_true in Ed; lra|].
  destruct (Rgtb (S_new cfg st y z x - st_S st y z x) 0) eqn:Ew;
    [reflexivity | apply Rgtb_false in Ew; lra].
Qed.

Lemma P_new_draining :
  S_new cfg st y z x < st_S st y z x ->
  P_new cfg st y z x
  = Rmax (P_relaxed cfg st y z x) (P_drain cfg st y z x).
Proof.
  intros H. unfold P_new, P_clamped_wet, wet, drain.
  destruct (Rgtb (st_S st y z x - S_new cfg st y z x) 0) eqn:Ed;
    [|apply Rgtb_false in Ed; lra].
  destruct (Rgtb (S_new cfg st y z x - st_S st y z x) 0) eqn:Ew;
    [apply Rgtb_true in Ew; lra | reflexivity].
Qed.

Lemma P_new_unchanged :
  S_new cfg st y z x = st_S st y z x ->
  P_new cfg st y z x = st_P st y z x.
Proof.
  intros H. unfold P_new, P_clamped_wet, wet, drain, P_relaxed.
  rewrite H.
  destruct (Rgtb (st_S st y z x - st_S st y z x) 0) eqn:E;
    [apply Rgtb_true in E; lra | lra].
Qed.

End PressureUpdate.

(** C3.  In every step and at every cell: where the saturation increases,
    the new pressure is the minimum of the relaxed pressure
    P + Kps (S_new - S) and of the wetting branch at the old saturation,
    hence below both; where the saturation decreases, the new pressure is
    at least the draining branch at the old saturation.  Both branches
    are evaluated at the old saturation. *)
Theorem hysteresis_ordering (cfg : Config) (st : State) (y z x : nat) :
  let S_old := st_S st y z x in
  let S_upd := st_S (step cfg st) y z x in
  let P_upd := st_P (step cfg st) y z x in
  let relaxed := st_P st y z x + Kps * (S_upd - S_old) in
  (S_old < S_upd ->
   P_upd = Rmin relaxed (retention_curve_wet cfg S_old)
   /\ P_upd <= relaxed
   /\ P_upd <= retention_curve_wet cfg S_old)
  /\ (S_upd < S_old -> retention_curve_drain cfg S_old <= P_upd).
Proof.
  cbn [step st_S st_P]. split; intros H.
  - rewrite P_new_wetting by assumption.
    unfold P_relaxed, P_wet.
    repeat split; [apply Rmin_l | apply Rmin_r].
  - rewrite P_new_draining by assumption.
    unfold P_drain. apply Rmax_r.
Qed.

(** C4.  When the draining branch is nowhere below the wetting branch,
    the new pressure of every cell lies between the minimum of the wetting
    branch (at the old saturation) and the previous pressure, and the
    maximum of the draining branch (at the old saturation) and the
    previous pressure. *)
Theorem hysteresis_envelope (cfg : Config) (st : State) (y z x : nat) :
  (forall s, retention_curve_wet cfg s <= retention_curve_drain cfg s) ->
  let S_old := st_S st y z x in
  let P_old := st_P st y z x in
  let P_upd := st_P (step cfg st) y z x in
  Rmin (retention_curve_wet cfg S_old) P_old <= P_upd
  /\ P_upd <= Rmax (retention_curve_drain cfg S_old) P_old.
Proof.
  intros Hord. cbn [step st_P].
  specialize (Hord (st_S st y z x)).
  pose proof Kps_pos as HK.
  destruct (Rtotal_order (st_S st y z x) (S_new cfg st y z x))
    as [Hw|[He|Hd]].
  - rewrite P_new_wetting by assumption.
    unfold P_relaxed, P_wet.
    assert (0 < Kps * (S_new cfg st y z x - st_S st y z x)) by nra.
    split; minmax.
  - rewrite P_new_unchanged by (symmetry; assumption).
    split; minmax.
  - rewrite P_new_draining by assumption.
    unfold P_relaxed, P_drain.
    assert (Kps * (S_new cfg st y z x - st_S st y z x) < 0) by nra.
    split; minmax.
Qed.


(** * The bottom boundary *)

Lemma S_new_bottom (cfg : Config) (st : State) (y x : nat) :
  (1 <= N_Z cfg)%nat ->
  S_new cfg st y (N_Z cfg - 1) x
  = Rmax (S_flow st y (N_Z cfg - 1) x + SM * st_bound_flux st y 0 x)
         (Rmin (S_flow st y (N_Z cfg - 1) x) (SATURATION_RESIDUAL cfg)).
Proof.
  intros HN. unfold S_new, bound_lim, bound_residual.
  replace (N_Z cfg - 1 + 1 =? N_Z cfg)%nat with true
    by (symmetry; apply Nat.eqb_eq; lia).
  rewrite Rmult_1_l. reflexivity.
Qed.

Lemma S_new_above (cfg : Config) (st : State) (y z x : nat) :
  (z + 1 <> N_Z cfg)%nat -> S_new cfg st y z x = S_flow st y z x.
Proof.
  intros Hz. unfold S_new.
  destruct (Nat.eqb_spec (z + 1) (N_Z cfg)); [contradiction | reflexivity].
Qed.

(** With a non-positive boundary flux and a bottom saturation below the
    threshold, the boundary condition changes nothing. *)
Lemma S_new_bottom_idle (cfg : Config) (st : State) (y x : nat) :
  (1 <= N_Z cfg)%nat ->
  S_flow st y (N_Z cfg - 1) x <= SATURATION_RESIDUAL cfg ->
  st_bound_flux st y 0 x <= 0 ->
  S_new cfg st y (N_Z cfg - 1) x = S_flow st y (N_Z cfg - 1) x.
Proof.
  intros HN Hres Hflux. rewrite S_new_bottom by assumption.
  pose proof SM_pos as HSM.
  assert (SM * st_bound_flux st y 0 x <= 0) by nra.
  minmax.
Qed.


(** * The boundary faces *)

(** One step leaves the faces on the boundary of the domain as they
    are. *)
Lemma step_boundary_faces (cfg : Config) (st : State) (y z x : nat) :
  st_Q_Z (step cfg st) y 0 x = st_Q_Z st y 0 x
  /\ st_Q_Z (step cfg st) y (N_Z cfg) x = st_Q_Z st y (N_Z cfg) x
  /\ st_Q_X (step cfg st) y z 0 = st_Q_X st y z 0
  /\ st_Q_X (step cfg st) y z (N_X cfg) = st_Q_X st y z (N_X cfg)
  /\ st_Q_Y (step cfg st) 0 z x = st_Q_Y st 0 z x
  /\ st_Q_Y (step cfg st) (N_Y cfg) z x = st_Q_Y st (N_Y cfg) z x.
Proof.
  cbn [step st_Q_X st_Q_Y st_Q_Z].
  unfold Q_X_new, Q_Y_new, Q_Z_new.
  rewrite !Nat.ltb_irrefl, !andb_false_r.
  cbn [Nat.leb andb]. repeat split.
Qed.

Lemma Q_Z_ini_below_top (cfg : Config) (y z x : nat) :
  (1 <= z)%nat -> Q_Z_ini cfg y z x = 0.
Proof.
  intros Hz. unfold Q_Z_ini.
  destruct (Nat.eqb_spec z 0); [lia|].
  rewrite !andb_false_r; cbn [andb].
  repeat match goal with |- context [if ?b then _ else _] => destruct b end;
    reflexivity.
Qed.

Lemma boundary_faces_at (cfg : Config) (k y z x : nat) :
  st_Q_Z (state_at cfg k) y 0 x = Q_Z_ini cfg y 0 x
  /\ st_Q_Z (state_at cfg k) y (N_Z cfg) x = Q_Z_ini cfg y (N_Z cfg) x
  /\ st_Q_X (state_at cfg k) y z 0 = 0
  /\ st_Q_X (state_at cfg k) y z (N_X cfg) = 0
  /\ st_Q_Y (state_at cfg k) 0 z x = 0
  /\ st_Q_Y (state_at cfg k) (N_Y cfg) z x = 0.
Proof.
  induction k as [|k IH].
  - cbn [state_at init st_Q_X st_Q_Y st_Q_Z]. unfold zeros. repeat split.
  - cbn [state_at].
    destruct (step_boundary_faces cfg (state_at cfg k) y z x)
      as (H1 & H2 & H3 & H4 & H5 & H6).
    destruct IH as (I1 & I2 & I3 & I4 & I5 & I6).
    rewrite H1, H2, H3, H4, H5, H6.
    repeat split; assumption.
Qed.

(** C10.  Throughout the run the flux update writes interior faces only:
    at the end of every iteration the top faces Q_Z[:, 0, :] hold the
    values they were initialised with, and the other faces on the boundary
    of the domain, Q_Z[:, N_Z, :], Q_X[:, :, 0], Q_X[:, :, N_X],
    Q_Y[0, :, :] and Q_Y[N_Y, :, :], hold their initial zeros. *)
Theorem boundary_faces_frame (cfg : Config) (k y z x : nat) :
  (1 <= N_Z cfg)%nat ->
  st_Q_Z (state_at cfg k) y 0 x = st_Q_Z (init cfg) y 0 x
  /\ st_Q_Z (state_at cfg k) y (N_Z cfg) x = 0
  /\ st_Q_X (state_at cfg k) y z 0 = 0
  /\ st_Q_X (state_at cfg k) y z (N_X cfg) = 0
  /\ st_Q_Y (state_at cfg k) 0 z x = 0
  /\ st_Q_Y (state_at cfg k) (N_Y cfg) z x = 0.
Proof.
  intros HN.
  destruct (boundary_faces_at cfg k y z x) as (H1 & H2 & H3 & H4 & H5 & H6).
  rewrite (Q_Z_ini_below_top cfg y (N_Z cfg) x HN) in H2.
  cbn [init st_Q_Z]. repeat split; assumption.
Qed.

Lemma boundary_faces_frame_witness :
  st_Q_Z (state_at main_sample (1280 * 1000)) 39 0 39 = 8e-5
  /\ st_Q_Z (state_at main_sample (1280 * 1000)) 39 120 39 = 0
  /\ st_Q_X (state_at main_sample (1280 * 1000)) 39 119 0 = 0
  /\ st_Q_X (state_at main_sample (1280 * 1000)) 39 119 40 = 0
  /\ st_Q_Y (state_at main_sample (1280 * 1000)) 0 119 39 = 0
  /\ st_Q_Y (state_at main_sample (1280 * 1000)) 40 119 39 = 0.
Proof.
  assert (HN : (1 <= N_Z main_sample)%nat) by (simpl; lia).
  destruct (boundary_faces_frame main_sample (1280 * 1000) 39 119 39 HN)
    as (H1 & H2 & H3 & H4 & H5 & H6).
  repeat split; assumption.
Defined.

(** * The guard *)




Lemma np_amax_column (A : field3) :
  np_amax 1 2 1 A = Rmax (A 0 0 0)%nat (A 0 1 0)%nat.
Proof. reflexivity. Qed.

Lemma np_amax_cell (A : field3) : np_amax 1 1 1 A = (A 0 0 0)%nat.
Proof. reflexivity. Qed.


(** * The loop and the states of the run *)

Lemma loop_completes (cfg : Config) (n k : nat) :
  (forall j, (k < j <= k + n)%nat -> diverged cfg (state_at cfg j) = false) ->
  loop cfg n k (state_at cfg k) = Completed (state_at cfg (k + n)).
Proof.
  revert k. induction n as [|n IH]; intros k Hg; cbn [loop].
  - rewrite Nat.add_0_r. reflexivity.
  - change (step cfg (state_at cfg k)) with (state_at cfg (S k)).
    rewrite Hg by lia.
    rewrite IH by (intros; apply Hg; lia).
    f_equal. f_equal. lia.
Qed.


Lemma simulate_completes (cfg : Config) :
  (forall j, (1 <= j <= iteration cfg)%nat ->
             diverged cfg (state_at cfg j) = false) ->
  simulate cfg = Completed (state_at cfg (iteration cfg)).
Proof.
  intros Hg. unfold simulate.
  apply (loop_completes cfg (iteration cfg) 0).
  intros j Hj; apply Hg; lia.
Qed.


Lemma not_diverged_cell (cfg : Config) (st : State) :
  N_Y cfg = 1%nat -> N_Z cfg = 1%nat -> N_X cfg = 1%nat ->
  0 <= st_S st 0 0 0 <= LIM_VALUE -> diverged cfg st = false.
Proof.
  intros HY HZ HX H. unfold diverged. rewrite HY, HZ, HX.
  apply Rgtb_false. rewrite np_amax_cell, Rabs_pos_eq; lra.
Qed.

(** * Runs without flux at the top *)

Lemma k_rnd_nonneg (cfg : Config) (y z x : nat) : 0 <= k_rnd cfg y z x.
Proof.
  unfold k_rnd, multiply. pose proof KAPPA_pos.
  apply Rmult_le_pos; [lra|].
  destruct (RANDOMIZATION_INTRINSIC_PERMEABILITY cfg);
    [apply multiply_entry_nonneg | unfold ones; lra].
Qed.

Lemma Q_Z_ini_zero (cfg : Config) (y z x : nat) :
  Q0 cfg = 0 -> Q_Z_ini cfg y z x = 0.
Proof.
  intros HQ. unfold Q_Z_ini. rewrite HQ.
  repeat match goal with |- context [if ?b then _ else _] => destruct b end;
    reflexivity.
Qed.

Lemma resting_init (cfg : Config) : Q0 cfg = 0 -> resting cfg (init cfg).
Proof.
  intros HQ. unfold resting; cbn [init st_S st_P st_Q_X st_Q_Y st_Q_Z
                                    st_bound_flux].
  repeat split; try reflexivity.
  intros; apply Q_Z_ini_zero; assumption.
Qed.

Section Resting.

Context (cfg : Config) (st : State).
Hypothesis Hrest : resting cfg st.

Lemma resting_Q_new (y z x : nat) : Q_new st y z x = 0.
Proof.
  destruct Hrest as (_ & _ & HX & HY & HZ & _).
  unfold Q_new. rewrite !HX, !HY, !HZ. lra.
Qed.

Lemma resting_S_flow (y z x : nat) : S_flow st y z x = S0 cfg.
Proof.
  unfold S_flow. rewrite resting_Q_new.
  destruct Hrest as (HS & _). rewrite HS. unfold S0_ini. lra.
Qed.

(** While the bottom boundary has not yet produced a flux, or when the
    initial saturation is at most the threshold, a step from a state at
    rest keeps saturation and pressure. *)
Lemma resting_S_new (y z x : nat) :
  (forall a b, st_bound_flux st a 0 b = 0)
  \/ S0 cfg <= SATURATION_RESIDUAL cfg ->
  S_new cfg st y z x = S0_ini cfg y z x.
Proof.
  intros Hb. unfold S_new, bound_lim, bound_residual.
  rewrite !resting_S_flow. unfold S0_ini.
  destruct (z + 1 =? N_Z cfg)%nat; [|lra].
  destruct Hb as [Hb|Hb].
  - rewrite Hb. minmax.
  - destruct Hrest as (_ & _ & _ & _ & _ & HB).
    pose proof (HB y x). pose proof SM_pos.
    assert (SM * st_bound_flux st y 0 x <= 0) by nra.
    minmax.
Qed.

Lemma resting_P_new (y z x : nat) :
  (forall a b, st_bound_flux st a 0 b = 0)
  \/ S0 cfg <= SATURATION_RESIDUAL cfg ->
  P_new cfg st y z x = P_ini cfg y z x.
Proof.
  intros Hb. rewrite P_new_unchanged.
  - destruct Hrest as (_ & HP & _). apply HP.
  - rewrite resting_S_new by assumption.
    destruct Hrest as (HS & _). symmetry; apply HS.
Qed.

End Resting.

(** A bottom pressure of at most - RHO_G dL gives a boundary flux that is
    not positive. *)
Lemma bound_flux_new_nonpos (cfg : Config) (st : State) (y x : nat) :
  P_new cfg st y (N_Z cfg - 1) x <= - (RHO_G * dL) ->
  bound_flux_new cfg st y 0 x <= 0.
Proof.
  intros Hp. unfold bound_flux_new. cbn [Nat.eqb].
  pose proof (k_rnd_nonneg cfg y (N_Z cfg - 1) x) as Hk.
  pose proof (relative_permeability_nonneg cfg
                (S_new cfg st y (N_Z cfg - 1) x)) as Hr.
  pose proof MU_INVERSE_pos as Hmu. pose proof dL_pos as HdL.
  unfold perm.
  set (p := P_new cfg st y (N_Z cfg - 1) x) in *.
  set (kk := k_rnd cfg y (N_Z cfg - 1) x) in *.
  set (rp := relative_permeability cfg _) in *.
  assert (Hg : RHO_G - (0 - p) / dL <= 0).
  { assert (p / dL <= - RHO_G).
    { apply (Rmult_le_reg_r dL); [assumption|].
      unfold Rdiv. rewrite Rmult_assoc, Rinv_l by lra. lra. }
    unfold Rdiv in *. lra. }
  assert (0 <= MU_INVERSE * kk * rp)
    by (apply Rmult_le_pos; [apply Rmult_le_pos|]; lra).
  nra.
Qed.

(** On a grid with one layer a state at rest stays at rest, provided the
    initial pressure is at most - RHO_G dL and the initial saturation at
    most the threshold. *)
Lemma resting_step (cfg : Config) (st : State) :
  N_Z cfg = 1%nat ->
  S0 cfg <= SATURATION_RESIDUAL cfg ->
  (forall y x, P_ini cfg y 0 x <= - (RHO_G * dL)) ->
  resting cfg st -> resting cfg (step cfg st).
Proof.
  intros HN Hres HP Hrest.
  assert (HS' : forall y z x, S_new cfg st y z x = S0_ini cfg y z x)
    by (intros; apply resting_S_new; auto).
  assert (HP' : forall y z x, P_new cfg st y z x = P_ini cfg y z x)
    by (intros; apply resting_P_new; auto).
  assert (Huni : forall y z x y' z' x',
             P_ini cfg y z x = P_ini cfg y' z' x') by reflexivity.
  destruct Hrest as (HS & HPr & HX & HY & HZ & HB).
  unfold resting; cbn [step st_S st_P st_Q_X st_Q_Y st_Q_Z st_bound_flux].
  repeat split; try assumption.
  - intros y z x. unfold Q_X_new.
    destruct ((1 <=? x)%nat && (x <? N_X cfg)%nat); [|apply HX].
    rewrite !HP', (Huni y z x y z (x - 1)%nat).
    unfold Rdiv; ring.
  - intros y z x. unfold Q_Y_new.
    destruct ((1 <=? y)%nat && (y <? N_Y cfg)%nat); [|apply HY].
    rewrite !HP', (Huni y z x (y - 1)%nat z x).
    unfold Rdiv; ring.
  - intros y z x. unfold Q_Z_new. rewrite HN.
    destruct (Nat.leb_spec 1 z), (Nat.ltb_spec z 1); cbn [andb];
      try apply HZ; lia.
  - intros y x. apply bound_flux_new_nonpos. rewrite HP', HN. apply HP.
Qed.

Lemma resting_at (cfg : Config) (k : nat) :
  Q0 cfg = 0 ->
  N_Z cfg = 1%nat ->
  S0 cfg <= SATURATION_RESIDUAL cfg ->
  (forall y x, P_ini cfg y 0 x <= - (RHO_G * dL)) ->
  resting cfg (state_at cfg k).
Proof.
  intros HQ HN Hres HP. induction k as [|k IH]; cbn [state_at].
  - apply resting_init; assumption.
  - apply resting_step; assumption.
Qed.

(** C7, amended.  With no flux at the top, the first iteration leaves
    saturation and pressure of every cell at their initial values, on
    every grid.  They stay there in every later iteration on a grid with a
    single layer (N_Z = 1), when the initial saturation is at most the
    residual threshold and the initial pressure at most - RHO_G dL. *)
Theorem zero_flux_rest (cfg : Config) :
  Q0 cfg = 0 ->
  (forall y z x,
      st_S (state_at cfg 1) y z x = st_S (init cfg) y z x
      /\ st_P (state_at cfg 1) y z x = st_P (init cfg) y z x)
  /\ (N_Z cfg = 1%nat ->
      S0 cfg <= SATURATION_RESIDUAL cfg ->
      (forall y x, st_P (init cfg) y 0 x <= - (RHO_G * dL)) ->
      forall k y z x,
        st_S (state_at cfg k) y z x = st_S (init cfg) y z x
        /\ st_P (state_at cfg k) y z x = st_P (init cfg) y z x).
Proof.
  intros HQ. split.
  - intros y z x. cbn [state_at step init st_S st_P].
    pose proof (resting_init cfg HQ) as Hrest.
    split.
    + apply (resting_S_new cfg _ Hrest). left; reflexivity.
    + apply (resting_P_new cfg _ Hrest). left; reflexivity.
  - intros HN Hres HP k y z x.
    destruct (resting_at cfg k HQ HN Hres HP) as (HS & HPk & _).
    cbn [init st_S st_P]. split; [apply HS | apply HPk].
Qed.

Lemma still_cell_pressure (y x : nat) :
  st_P (init still_cell) y 0 x <= - (RHO_G * dL).
Proof.
  cbn [init st_P]. unfold P_ini, S0_ini. simpl.
  unfold curve_deep, dL. rewrite RHO_G_value. lra.
Qed.

Lemma zero_flux_rest_witness :
  (st_S (state_at still_column 1) 0 1 0 = st_S (init still_column) 0 1 0
   /\ st_P (state_at still_column 1) 0 1 0 = st_P (init still_column) 0 1 0)
  /\ st_S (state_at still_cell (64 * 1000)) 0 0 0
     = st_S (init still_cell) 0 0 0
  /\ st_P (state_at still_cell (64 * 1000)) 0 0 0
     = st_P (init still_cell) 0 0 0.
Proof.
  split.
  - apply (proj1 (zero_flux_rest still_column eq_refl)).
  - apply (proj2 (zero_flux_rest still_cell eq_refl) eq_refl).
    + simpl; lra.
    + apply still_cell_pressure.
Defined.

(** The state after the first iteration of a run without flux at the
    top. *)
Section FirstStepWithoutFlux.

Context (cfg : Config).
Hypothesis HQ : Q0 cfg = 0.

Lemma first_step_S (y z x : nat) :
  st_S (state_at cfg 1) y z x = S0 cfg.
Proof.
  cbn [state_at step st_S].
  rewrite (resting_S_new cfg _ (resting_init cfg HQ))
    by (left; reflexivity).
  unfold S0_ini; lra.
Qed.

Lemma first_step_P (y z x : nat) :
  st_P (state_at cfg 1) y z x = P_ini cfg y z x.
Proof.
  cbn [state_at step st_P].
  apply (resting_P_new cfg _ (resting_init cfg HQ)). left; reflexivity.
Qed.

Lemma first_step_perm (y z x : nat) :
  perm cfg (init cfg) y z x = relative_permeability cfg (S0 cfg).
Proof.
  unfold perm.
  rewrite (resting_S_new cfg _ (resting_init cfg HQ))
    by (left; reflexivity).
  unfold S0_ini. rewrite Rmult_1_l. reflexivity.
Qed.

(** Gravity alone drives a flux through every interior z-face. *)
Lemma first_step_gravity_flux (y z x : nat) :
  (z + 1 < N_Z cfg)%nat ->
  st_Q_Z (state_at cfg 1) y (z + 1) x
  = k_rnd_q2 cfg y z x * relative_permeability cfg (S0 cfg) * RHO_G.
Proof.
  intros Hz. cbn [state_at step st_Q_Z].
  rewrite Q_Z_new_interior by assumption.
  unfold perm_sqrt. rewrite !first_step_perm.
  rewrite !(resting_P_new cfg _ (resting_init cfg HQ))
    by (left; reflexivity).
  replace (P_ini cfg y (z + 1) x - P_ini cfg y z x) with 0
    by (unfold P_ini, S0_ini; lra).
  pose proof (sqrt_sqrt _ (relative_permeability_nonneg cfg (S0 cfg))) as Hs.
  transitivity
    (k_rnd_q2 cfg y z x
     * (sqrt (relative_permeability cfg (S0 cfg))
        * sqrt (relative_permeability cfg (S0 cfg))) * RHO_G);
    [unfold Rdiv; ring | rewrite Hs; reflexivity].
Qed.

Lemma first_step_bound_flux (y x : nat) :
  st_bound_flux (state_at cfg 1) y 0 x
  = MU_INVERSE * k_rnd cfg y (N_Z cfg - 1) x
    * relative_permeability cfg (S0 cfg)
    * (RHO_G - (0 - P_ini cfg y (N_Z cfg - 1) x) / dL).
Proof.
  cbn [state_at step st_bound_flux]. unfold bound_flux_new.
  cbn [Nat.eqb]. rewrite first_step_perm.
  rewrite (resting_P_new cfg _ (resting_init cfg HQ))
    by (left; reflexivity).
  reflexivity.
Qed.

End FirstStepWithoutFlux.

Lemma sample_k_rnd (ny nz nx it : nat) (s0 q0 res : R) (c : R -> R)
  (y z x : nat) :
  k_rnd (sample ny nz nx it s0 q0 res c) y z x = KAPPA.
Proof. unfold k_rnd, multiply, ones; simpl. lra. Qed.

Lemma sample_relative_permeability
  (ny nz nx it : nat) (s0 q0 res : R) (c : R -> R) (s : R) :
  0 < s < 1 ->
  0 < relative_permeability (sample ny nz nx it s0 q0 res c) s < 1.
Proof.
  intros Hs. apply relative_permeability_bounds; [|assumption].
  unfold M_Q; simpl. lra.
Qed.

Lemma KAPPA_over_MU : MU_INVERSE * KAPPA = 2.293577981651376e-6 / 9.
Proof. unfold MU_INVERSE, MU, KAPPA. lra. Qed.

(** The flux through the face between the two cells of [still_column]
    after the first iteration. *)
Lemma still_column_flux :
  0 < st_Q_Z (state_at still_column 1) 0 1 0 < 0.0025.
Proof.
  pose proof (first_step_gravity_flux still_column eq_refl 0 0 0
                ltac:(simpl; lia)) as HF.
  cbn [Nat.add] in HF. rewrite HF.
  unfold k_rnd_q2, k_rnd_sqrt. unfold still_column.
  rewrite !sample_k_rnd.
  pose proof (sqrt_sqrt KAPPA (Rlt_le _ _ KAPPA_pos)) as HK.
  pose proof (sample_relative_permeability 1 2 1 2 0.01 0 1.05 curve_deep
                0.01 ltac:(lra)) as Hrp.
  change (S0 (sample 1 2 1 2 0.01 0 1.05 curve_deep)) with 0.01.
  set (rp := relative_permeability _ _) in *.
  replace (MU_INVERSE * sqrt KAPPA * sqrt KAPPA * rp * RHO_G)
    with (MU_INVERSE * (sqrt KAPPA * sqrt KAPPA) * rp * RHO_G) by ring.
  rewrite HK, KAPPA_over_MU, RHO_G_value. nra.
Qed.

Lemma still_column_second_step :
  st_S (state_at still_column 2) 0 0 0
  = 0.01 - SM * st_Q_Z (state_at still_column 1) 0 1 0
  /\ st_S (state_at still_column 2) 0 1 0
     = 0.01 + SM * st_Q_Z (state_at still_column 1) 0 1 0.
Proof.
  change (state_at still_column 2)
    with (step still_column (state_at still_column 1)).
  cbn [step st_S].
  destruct (boundary_faces_at still_column 1 0 0 0)
    as (HZ0 & HZ2 & HX0 & HX1 & HY0 & HY1).
  destruct (boundary_faces_at still_column 1 0 1 0)
    as (_ & _ & HX0' & HX1' & HY0' & HY1').
  cbn [N_X N_Y N_Z still_column sample] in HX1, HY1, HX1', HY1', HZ2.
  rewrite !(Q_Z_ini_zero still_column _ _ _ eq_refl) in *.
  pose proof still_column_flux as Hflux. pose proof SM_pos as HSM.
  assert (HT : S_flow (state_at still_column 1) 0 0 0
               = 0.01 - SM * st_Q_Z (state_at still_column 1) 0 1 0).
  { unfold S_flow, Q_new. cbn [Nat.add].
    rewrite HZ0, HX0, HX1, HY0, HY1.
    rewrite (first_step_S still_column eq_refl). simpl. lra. }
  assert (HB : S_flow (state_at still_column 1) 0 1 0
               = 0.01 + SM * st_Q_Z (state_at still_column 1) 0 1 0).
  { unfold S_flow, Q_new. cbn [Nat.add].
    rewrite HZ2, HX0', HX1', HY0', HY1'.
    rewrite (first_step_S still_column eq_refl). simpl. lra. }
  split.
  - rewrite S_new_above by (simpl; lia). exact HT.
  - rewrite <- HB.
    apply (S_new_bottom_idle still_column (state_at still_column 1) 0 0);
      [simpl; lia | |].
    + change (N_Z still_column - 1)%nat with 1%nat.
      change (SATURATION_RESIDUAL still_column) with 1.05.
      rewrite HB, SM_value. lra.
    + rewrite (first_step_bound_flux still_column eq_refl).
      unfold still_column. rewrite sample_k_rnd.
      pose proof (sample_relative_permeability 1 2 1 2 0.01 0 1.05
                    curve_deep 0.01 ltac:(lra)) as Hrp.
      change (S0 (sample 1 2 1 2 0.01 0 1.05 curve_deep)) with 0.01.
      set (rp := relative_permeability _ _) in *.
      unfold P_ini, S0_ini; simpl. unfold curve_deep, dL.
      rewrite KAPPA_over_MU, RHO_G_value. nra.
Qed.

Lemma still_column_completes :
  simulate still_column = Completed (state_at still_column 2).
Proof.
  apply (simulate_completes still_column). intros j Hj.
  cbn [iteration still_column sample] in Hj.
  apply Rgtb_false.
  change (N_Y still_column) with 1%nat.
  change (N_Z still_column) with 2%nat.
  change (N_X still_column) with 1%nat.
  rewrite np_amax_column.
  assert (Hc : j = 1%nat \/ j = 2%nat) by lia.
  destruct Hc as [-> | ->].
  - rewrite !(first_step_S still_column eq_refl).
    unfold LIM_VALUE, Rabs; simpl. destruct (Rcase_abs _); minmax.
  - destruct still_column_second_step as [-> ->].
    pose proof still_column_flux as Hflux.
    rewrite SM_value.
    unfold LIM_VALUE, Rabs. destruct (Rcase_abs _); minmax.
Qed.

(** C7, as stated, fails: in [still_column] no water enters and the run
    completes, yet the saturation of the upper cell has dropped below its
    initial value at the end of the second iteration. *)
Lemma gravity_moves_water :
  Q0 still_column = 0
  /\ simulate still_column = Completed (state_at still_column 2)
  /\ st_S (state_at still_column 2) 0 0 0 < st_S (init still_column) 0 0 0.
Proof.
  split; [reflexivity|]. split; [apply still_column_completes|].
  rewrite (proj1 still_column_second_step).
  pose proof still_column_flux as Hflux. pose proof SM_pos.
  cbn [init st_S]. unfold S0_ini.
  change (S0 still_column) with 0.01. nra.
Qed.

(** * The bottom boundary of a coarse medium *)

Lemma coarse_cell_bound_flux :
  0 < st_bound_flux (state_at coarse_cell 1) 0 0 0 < 0.0025.
Proof.
  rewrite (first_step_bound_flux coarse_cell eq_refl).
  unfold coarse_cell. rewrite sample_k_rnd.
  pose proof (sample_relative_permeability 1 1 1 2 0.01 0 1.05 curve_shallow
                0.01 ltac:(lra)) as Hrp.
  change (S0 (sample 1 1 1 2 0.01 0 1.05 curve_shallow)) with 0.01.
  set (rp := relative_permeability _ _) in *.
  unfold P_ini, S0_ini; simpl. unfold curve_shallow, dL.
  rewrite KAPPA_over_MU, RHO_G_value. nra.
Qed.

Lemma coarse_cell_second_step :
  S_flow (state_at coarse_cell 1) 0 0 0 = 0.01
  /\ st_S (state_at coarse_cell 2) 0 0 0
     = 0.01 + SM * st_bound_flux (state_at coarse_cell 1) 0 0 0.
Proof.
  assert (HF : S_flow (state_at coarse_cell 1) 0 0 0 = 0.01).
  { unfold S_flow, Q_new.
    destruct (boundary_faces_at coarse_cell 1 0 0 0)
      as (HZ0 & HZ1 & HX0 & HX1 & HY0 & HY1).
    cbn [N_X N_Y N_Z coarse_cell sample] in HX1, HY1, HZ1.
    cbn [Nat.add]. rewrite HZ0, HZ1, HX0, HX1, HY0, HY1.
    rewrite !(Q_Z_ini_zero coarse_cell _ _ _ eq_refl).
    rewrite (first_step_S coarse_cell eq_refl). simpl. lra. }
  split; [exact HF|].
  change (state_at coarse_cell 2)
    with (step coarse_cell (state_at coarse_cell 1)).
  cbn [step st_S].
  pose proof (S_new_bottom coarse_cell (state_at coarse_cell 1) 0 0
                ltac:(simpl; lia)) as HB.
  cbn [N_Z coarse_cell sample Nat.sub] in HB. rewrite HB, HF.
  pose proof coarse_cell_bound_flux. pose proof SM_pos.
  cbn [SATURATION_RESIDUAL sample].
  assert (0 < SM * st_bound_flux (state_at coarse_cell 1) 0 0 0) by nra.
  minmax.
Qed.


(** * The mass balance report *)

Lemma checkpoint_first : checkpoint (64 * 1000) = true.
Proof.
  unfold checkpoint.
  assert (HI : INR (64 * 1000) = 64000).
  { rewrite mult_INR, !INR_IZR_INZ. simpl Z.of_nat. lra. }
  destruct (Req_EM_T (py_mod (INR (64 * 1000)) PRINT_MODULO) 0) as [|Hne];
    [reflexivity|].
  exfalso; apply Hne. unfold py_mod.
  rewrite HI, PRINT_MODULO_value.
  rewrite <- (Int_part_spec (64000 / 64000) 1) by lra. lra.
Qed.

(** C9, amended.  The relative error of the report is the plain quotient
    error_abs / flowed_in_should, with no test of the divisor.  When the
    theoretical inflow is exactly zero it is the float quotient by zero:
    nan if the absolute error is zero as well, an infinity otherwise. *)
Theorem relative_error_unguarded (cfg : Config) (k : nat) (st : State) :
  flowed_in_should cfg k st = 0 ->
  (error_abs cfg k st = 0 -> error_rel cfg k st = NaN)
  /\ (error_abs cfg k st <> 0 -> error_rel cfg k st = Inf).
Proof.
  intros H0. unfold error_rel, np_divide. rewrite H0.
  destruct (Req_EM_T 0 0) as [_|Hne]; [|contradiction].
  destruct (Req_EM_T (error_abs cfg k st) 0) as [He|He].
  - split; [reflexivity | intros; contradiction].
  - split; [intros; contradiction | reflexivity].
Qed.

Lemma still_cell_resting (k : nat) :
  resting still_cell (state_at still_cell k).
Proof.
  apply resting_at; [reflexivity | reflexivity | simpl; lra |].
  apply still_cell_pressure.
Qed.

Lemma still_cell_report (k : nat) :
  flowed_in_should still_cell k (state_at still_cell k) = 0
  /\ error_abs still_cell k (state_at still_cell k) = 0.
Proof.
  destruct (still_cell_resting k) as (HS & _ & _ & _ & HZ & _).
  assert (H0 : flowed_in_should still_cell k (state_at still_cell k) = 0).
  { unfold flowed_in_should, np_sum_row. sum_cells.
    rewrite HZ. lra. }
  split; [exact H0|].
  unfold error_abs. rewrite H0.
  unfold flowed_in_real, np_sum. sum_cells. rewrite HS.
  replace (0 + (0 + (0 + S0_ini still_cell 0 0 0))
           - (0 + (0 + (0 + S0_ini still_cell 0 0 0))) - 0) with 0 by lra.
  apply Rabs_R0.
Qed.

Lemma coarse_cell_report :
  flowed_in_should coarse_cell 2 (state_at coarse_cell 2) = 0
  /\ flowed_in_real coarse_cell (state_at coarse_cell 2)
     = SM * st_bound_flux (state_at coarse_cell 1) 0 0 0.
Proof.
  split.
  - unfold flowed_in_should, np_sum_row. sum_cells.
    destruct (boundary_faces_at coarse_cell 2 0 0 0) as (HZ0 & _).
    rewrite HZ0, (Q_Z_ini_zero coarse_cell _ _ _ eq_refl). lra.
  - unfold flowed_in_real, np_sum. sum_cells.
    rewrite (proj2 coarse_cell_second_step).
    unfold S0_ini; simpl. lra.
Qed.

Lemma relative_error_unguarded_witness :
  error_rel still_cell (64 * 1000) (state_at still_cell (64 * 1000)) = NaN
  /\ error_rel coarse_cell 2 (state_at coarse_cell 2) = Inf.
Proof.
  split.
  - apply (proj1 (relative_error_unguarded still_cell (64 * 1000) _
                    (proj1 (still_cell_report (64 * 1000))))).
    apply (proj2 (still_cell_report (64 * 1000))).
  - apply (proj2 (relative_error_unguarded coarse_cell 2 _
                    (proj1 coarse_cell_report))).
    unfold error_abs.
    rewrite (proj1 coarse_cell_report), (proj2 coarse_cell_report).
    pose proof coarse_cell_bound_flux. pose proof SM_pos.
    rewrite Rminus_0_r. apply Rabs_no_R0. nra.
Defined.

Lemma still_cell_completes :
  simulate still_cell = Completed (state_at still_cell (64 * 1000)).
Proof.
  apply (simulate_completes still_cell). intros j _.
  apply not_diverged_cell; try reflexivity.
  destruct (still_cell_resting j) as (HS & _). rewrite HS.
  unfold S0_ini, LIM_VALUE; simpl. lra.
Qed.

(** C9, as stated, fails: the run of [still_cell] reaches the iteration
    64000, in which the report is printed; the theoretical inflow is zero
    there and the relative error printed is nan. *)
Lemma zero_inflow_reports_nan :
  simulate still_cell = Completed (state_at still_cell (64 * 1000))
  /\ checkpoint (64 * 1000) = true
  /\ flowed_in_should still_cell (64 * 1000)
       (state_at still_cell (64 * 1000)) = 0
  /\ error_rel still_cell (64 * 1000) (state_at still_cell (64 * 1000)) = NaN.
Proof.
  destruct (still_cell_report (64 * 1000)) as [H0 He].
  repeat split;
    [apply still_cell_completes | apply checkpoint_first | exact H0 |].
  unfold error_rel, np_divide. rewrite H0, He.
  destruct (Req_EM_T 0 0); [reflexivity | contradiction].
Qed.

(** * Conservation *)

Lemma np_sum_ext (ny nz nx : nat) (A B : field3) :
  (forall y z x, (y < ny)%nat -> (z < nz)%nat -> (x < nx)%nat ->
                 A y z x = B y z x) ->
  np_sum ny nz nx A = np_sum ny nz nx B.
Proof.
  intros H. unfold np_sum.
  apply sum_upto_ext; intros y Hy.
  apply sum_upto_ext; intros z Hz.
  apply sum_upto_ext; intros x Hx. apply H; assumption.
Qed.

Lemma np_sum_plus (ny nz nx : nat) (A B : field3) :
  np_sum ny nz nx (fun y z x => A y z x + B y z x)
  = np_sum ny nz nx A + np_sum ny nz nx B.
Proof.
  unfold np_sum. rewrite <- sum_upto_plus.
  apply sum_upto_ext; intros y _. rewrite <- sum_upto_plus.
  apply sum_upto_ext; intros z _. apply sum_upto_plus.
Qed.


Lemma closed_sides_at (cfg : Config) (k : nat) :
  (1 <= N_Z cfg)%nat -> closed_sides cfg (state_at cfg k).
Proof.
  intros HN y z x.
  destruct (boundary_faces_at cfg k y z x) as (_ & H2 & H3 & H4 & H5 & H6).
  rewrite (Q_Z_ini_below_top cfg y (N_Z cfg) x HN) in H2.
  repeat split; assumption.
Qed.

(** The divergences of all cells add up to the flux through the top. *)
Lemma np_sum_Q_new (cfg : Config) (st : State) :
  closed_sides cfg st ->
  np_sum (N_Y cfg) (N_Z cfg) (N_X cfg) (Q_new st)
  = np_sum_row (N_Y cfg) (N_X cfg) (st_Q_Z st) 0.
Proof.
  intros Hc.
  set (ny := N_Y cfg). set (nz := N_Z cfg). set (nx := N_X cfg).
  set (DX := fun y z x => st_Q_X st y z x - st_Q_X st y z (x + 1)).
  set (DY := fun y z x => st_Q_Y st y z x - st_Q_Y st (y + 1) z x).
  set (DZ := fun y z x => st_Q_Z st y z x - st_Q_Z st y (z + 1) x).
  assert (HX : np_sum ny nz nx DX = 0).
  { unfold np_sum. apply sum_upto_zero; intros y _.
    apply sum_upto_zero; intros z _. unfold DX.
    rewrite (sum_upto_telescope nx (fun x => st_Q_X st y z x)).
    destruct (Hc y z 0%nat) as (_ & H0 & H1 & _).
    fold nx in H1. lra. }
  assert (HY : np_sum ny nz nx DY = 0).
  { unfold np_sum.
    rewrite (sum_upto_swap ny nz).
    apply sum_upto_zero; intros z _.
    rewrite (sum_upto_swap ny nx).
    apply sum_upto_zero; intros x _. unfold DY.
    rewrite (sum_upto_telescope ny (fun y => st_Q_Y st y z x)).
    destruct (Hc 0%nat z x) as (_ & _ & _ & H0 & H1).
    fold ny in H1. lra. }
  assert (HZ : np_sum ny nz nx DZ = np_sum_row ny nx (st_Q_Z st) 0).
  { unfold np_sum, np_sum_row.
    apply sum_upto_ext; intros y _.
    rewrite (sum_upto_swap nz nx).
    apply sum_upto_ext; intros x _. unfold DZ.
    rewrite (sum_upto_telescope nz (fun z => st_Q_Z st y z x)).
    destruct (Hc y 0%nat x) as (H1 & _).
    fold nz in H1. lra. }
  rewrite (np_sum_ext ny nz nx (Q_new st)
             (fun y z x => (DX y z x + DY y z x) + DZ y z x))
    by (intros; unfold Q_new, DX, DY, DZ; lra).
  rewrite (np_sum_plus ny nz nx (fun y z x => DX y z x + DY y z x) DZ).
  rewrite (np_sum_plus ny nz nx DX DY).
  rewrite HX, HY, HZ. lra.
Qed.













(** * The pressure update and the bottom boundary on the sample runs *)

Lemma column_upper_cell_wets :
  st_S (init column) 0 0 0 < st_S (step column (init column)) 0 0 0.
Proof. run_cells. rewrite SM_value. lra. Qed.

Lemma still_column_upper_cell_drains :
  st_S (step still_column (state_at still_column 1)) 0 0 0
  < st_S (state_at still_column 1) 0 0 0.
Proof.
  change (step still_column (state_at still_column 1))
    with (state_at still_column 2).
  rewrite (proj1 still_column_second_step).
  rewrite (first_step_S still_column eq_refl).
  pose proof still_column_flux. pose proof SM_pos.
  change (S0 still_column) with 0.01. nra.
Qed.

Lemma hysteresis_ordering_witness :
  (st_P (step column (init column)) 0 0 0
   = Rmin (st_P (init column) 0 0 0
           + Kps * (st_S (step column (init column)) 0 0 0
                    - st_S (init column) 0 0 0))
          (retention_curve_wet column (st_S (init column) 0 0 0))
   /\ st_P (step column (init column)) 0 0 0
      <= st_P (init column) 0 0 0
         + Kps * (st_S (step column (init column)) 0 0 0
                  - st_S (init column) 0 0 0)
   /\ st_P (step column (init column)) 0 0 0
      <= retention_curve_wet column (st_S (init column) 0 0 0))
  /\ retention_curve_drain still_column
       (st_S (state_at still_column 1) 0 0 0)
     <= st_P (step still_column (state_at still_column 1)) 0 0 0.
Proof.
  split.
  - apply (proj1 (hysteresis_ordering column (init column) 0 0 0)).
    apply column_upper_cell_wets.
  - apply (proj2 (hysteresis_ordering still_column
                    (state_at still_column 1) 0 0 0)).
    apply still_column_upper_cell_drains.
Defined.

Lemma hysteresis_envelope_witness :
  Rmin (retention_curve_wet still_column
          (st_S (state_at still_column 1) 0 0 0))
       (st_P (state_at still_column 1) 0 0 0)
  <= st_P (step still_column (state_at still_column 1)) 0 0 0
  /\ st_P (step still_column (state_at still_column 1)) 0 0 0
     <= Rmax (retention_curve_drain still_column
                (st_S (state_at still_column 1) 0 0 0))
             (st_P (state_at still_column 1) 0 0 0).
Proof.
  apply (hysteresis_envelope still_column (state_at still_column 1) 0 0 0).
  intros s. simpl. lra.
Defined.


(** * Further properties of the program *)

(** ** The multiplier and the permeability field *)

(** X1.  The multiplier is above 1 for a positive noise value, strictly
    between 0 and 1 for a negative one, and the multipliers of r and of
    - r are inverse to each other (for r other than 0). *)
Theorem multiply_entry_reciprocal (r : R) :
  r <> 0 ->
  multiply_entry (- r) * multiply_entry r = 1
  /\ (0 < r -> 1 < multiply_entry r)
  /\ (r < 0 -> 0 < multiply_entry r < 1).
Proof.
  intros Hr. repeat split.
  - destruct (Rtotal_order r 0) as [H|[H|H]]; [|contradiction|].
    + rewrite (multiply_entry_pos (- r)), (multiply_entry_neg r) by lra.
      field; lra.
    + rewrite (multiply_entry_neg (- r)), (multiply_entry_pos r) by lra.
      field; lra.
  - intros H. rewrite multiply_entry_pos by assumption. lra.
  - rewrite multiply_entry_neg by assumption.
    apply Rdiv_lt_0_compat; lra.
  - rewrite multiply_entry_neg by assumption.
    apply (Rmult_lt_reg_r (1 - r)); [lra|].
    unfold Rdiv. rewrite Rmult_assoc, Rinv_l by lra. lra.
Qed.

Lemma multiply_entry_reciprocal_witness :
  multiply_entry (Ropp 0.3) * multiply_entry 0.3 = 1
  /\ 1 < multiply_entry 0.3
  /\ 0 < multiply_entry (Ropp 0.3) < 1.
Proof.
  destruct (multiply_entry_reciprocal 0.3 ltac:(lra)) as (H1 & H2 & _).
  destruct (multiply_entry_reciprocal (Ropp 0.3) ltac:(lra))
    as (_ & _ & H3).
  repeat split; [exact H1 | apply H2; lra | apply H3; lra | apply H3; lra].
Defined.

Lemma k_rnd_sqrt_zero_noise (cfg : Config) (y z x : nat) :
  RANDOMIZATION_INTRINSIC_PERMEABILITY cfg = true ->
  random_perm cfg y z x = 0 ->
  k_rnd cfg y z x = 0 /\ k_rnd_sqrt cfg y z x = 0.
Proof.
  intros Hrand H0.
  assert (Hk : k_rnd cfg y z x = 0).
  { unfold k_rnd, multiply. rewrite Hrand, H0.
    unfold multiply_entry.
    destruct (Rgtb 0 0) eqn:E; [apply Rgtb_true in E; lra | lra]. }
  split; [exact Hk|]. unfold k_rnd_sqrt. rewrite Hk. apply sqrt_0.
Qed.

Lemma sealed_at (cfg : Config) (k y z x : nat) :
  RANDOMIZATION_INTRINSIC_PERMEABILITY cfg = true ->
  random_perm cfg y z x = 0 ->
  (1 <= z)%nat ->
  sealed cfg (state_at cfg k) y z x.
Proof.
  intros Hrand H0 Hz.
  destruct (k_rnd_sqrt_zero_noise cfg y z x Hrand H0) as [Hk Hs].
  induction k as [|k IH].
  - unfold sealed; cbn [state_at init st_Q_X st_Q_Y st_Q_Z st_bound_flux].
    unfold zeros. rewrite !Q_Z_ini_below_top by lia. repeat split.
  - destruct IH as (X0 & X1 & Y0 & Y1 & Z0 & Z1 & B).
    unfold sealed; cbn [state_at step st_Q_X st_Q_Y st_Q_Z st_bound_flux].
    repeat split.
    + unfold Q_X_new.
      destruct ((1 <=? x)%nat && (x <? N_X cfg)%nat) eqn:E; [|exact X0].
      apply andb_true_iff in E as [E _]. apply Nat.leb_le in E.
      unfold k_rnd_q1. replace (x - 1 + 1)%nat with x by lia.
      rewrite Hs. ring.
    + unfold Q_X_new.
      destruct ((1 <=? x + 1)%nat && (x + 1 <? N_X cfg)%nat); [|exact X1].
      unfold k_rnd_q1. replace (x + 1 - 1)%nat with x by lia.
      rewrite Hs. ring.
    + unfold Q_Y_new.
      destruct ((1 <=? y)%nat && (y <? N_Y cfg)%nat) eqn:E; [|exact Y0].
      apply andb_true_iff in E as [E _]. apply Nat.leb_le in E.
      unfold k_rnd_q3. replace (y - 1 + 1)%nat with y by lia.
      rewrite Hs. ring.
    + unfold Q_Y_new.
      destruct ((1 <=? y + 1)%nat && (y + 1 <? N_Y cfg)%nat); [|exact Y1].
      unfold k_rnd_q3. replace (y + 1 - 1)%nat with y by lia.
      rewrite Hs. ring.
    + unfold Q_Z_new.
      destruct ((1 <=? z)%nat && (z <? N_Z cfg)%nat); [|exact Z0].
      unfold k_rnd_q2. replace (z - 1 + 1)%nat with z by lia.
      rewrite Hs. ring.
    + unfold Q_Z_new.
      destruct ((1 <=? z + 1)%nat && (z + 1 <? N_Z cfg)%nat); [|exact Z1].
      unfold k_rnd_q2. replace (z + 1 - 1)%nat with z by lia.
      rewrite Hs. ring.
    + intros HN. unfold bound_flux_new. cbn [Nat.eqb].
      replace (N_Z cfg - 1)%nat with z by lia.
      rewrite Hk. ring.
Qed.

(** X2.  With randomisation, a cell below the top row whose noise value
    is exactly 0 is sealed off: at the end of every iteration its six
    faces carry no flux, and its saturation and pressure are the initial
    ones. *)
Theorem zero_noise_cell_sealed (cfg : Config) (k y z x : nat) :
  RANDOMIZATION_INTRINSIC_PERMEABILITY cfg = true ->
  random_perm cfg y z x = 0 ->
  (1 <= z)%nat ->
  st_Q_X (state_at cfg k) y z x = 0
  /\ st_Q_X (state_at cfg k) y z (x + 1) = 0
  /\ st_Q_Y (state_at cfg k) y z x = 0
  /\ st_Q_Y (state_at cfg k) (y + 1) z x = 0
  /\ st_Q_Z (state_at cfg k) y z x = 0
  /\ st_Q_Z (state_at cfg k) y (z + 1) x = 0
  /\ st_S (state_at cfg k) y z x = S0 cfg
  /\ st_P (state_at cfg k) y z x = st_P (init cfg) y z x.
Proof.
  intros Hrand H0 Hz.
  pose proof (sealed_at cfg k y z x Hrand H0 Hz)
    as (X0 & X1 & Y0 & Y1 & Z0 & Z1 & _).
  repeat split; try assumption.
  - clear X0 X1 Y0 Y1 Z0 Z1. induction k as [|k IH].
    + cbn [state_at init st_S]. unfold S0_ini; lra.
    + destruct (sealed_at cfg k y z x Hrand H0 Hz)
        as (X0 & X1 & Y0 & Y1 & Z0 & Z1 & B).
      cbn [state_at step st_S]. unfold S_new, bound_lim, bound_residual.
      assert (HF : S_flow (state_at cfg k) y z x = S0 cfg).
      { unfold S_flow, Q_new. rewrite X0, X1, Y0, Y1, Z0, Z1, IH. lra. }
      destruct (Nat.eqb_spec (z + 1) (N_Z cfg)) as [HN|HN]; [|exact HF].
      replace (N_Z cfg - 1)%nat with z by lia.
      rewrite HF, (B HN). minmax.
  - clear X0 X1 Y0 Y1 Z0 Z1. induction k as [|k IH]; [reflexivity|].
    cbn [state_at step st_P]. rewrite P_new_unchanged; [exact IH|].
    destruct (sealed_at cfg k y z x Hrand H0 Hz)
      as (X0 & X1 & Y0 & Y1 & Z0 & Z1 & B).
    unfold S_new, bound_lim, bound_residual.
    assert (HF : S_flow (state_at cfg k) y z x
                 = st_S (state_at cfg k) y z x).
    { unfold S_flow, Q_new. rewrite X0, X1, Y0, Y1, Z0, Z1. lra. }
    destruct (Nat.eqb_spec (z + 1) (N_Z cfg)) as [HN|HN]; [|exact HF].
    replace (N_Z cfg - 1)%nat with z by lia.
    rewrite HF, (B HN). minmax.
Qed.

Lemma zero_noise_cell_sealed_witness :
  st_Q_Z (state_at main_layered (1280 * 1000)) 7 60 9 = 0
  /\ st_Q_Z (state_at main_layered (1280 * 1000)) 7 61 9 = 0
  /\ st_S (state_at main_layered (1280 * 1000)) 7 60 9 = 0.01.
Proof.
  destruct (zero_noise_cell_sealed main_layered (1280 * 1000) 7 60 9
              eq_refl eq_refl ltac:(lia))
    as (_ & _ & _ & _ & HZ0 & HZ1 & HS & _).
  repeat split; assumption.
Defined.

(** ** The relative permeability *)

Lemma np_power_zero (y : R) : np_power 0 y = 0.
Proof. unfold np_power. destruct (Rlt_dec 0 0); [lra | reflexivity]. Qed.

Lemma np_power_one (y : R) : np_power 1 y = 1.
Proof.
  unfold np_power. destruct (Rlt_dec 0 1); [apply Rpower_one_base | lra].
Qed.

Lemma np_power_le_1 (x y : R) : 0 <= x <= 1 -> 0 < y -> np_power x y <= 1.
Proof.
  intros [H0 H1] Hy.
  destruct (Req_dec x 0) as [->|Hx0]; [rewrite np_power_zero; lra|].
  destruct (Req_dec x 1) as [->|Hx1]; [rewrite np_power_one; lra|].
  left; apply np_power_lt_1; lra.
Qed.

Lemma np_power_monotone (x x' y : R) :
  0 <= x <= x' -> 0 < y -> np_power x y <= np_power x' y.
Proof.
  intros [H0 Hle] Hy.
  destruct (Req_dec x 0) as [->|Hx0].
  - rewrite np_power_zero. apply np_power_nonneg.
  - unfold np_power.
    destruct (Rlt_dec 0 x); [|lra]. destruct (Rlt_dec 0 x'); [|lra].
    apply Rle_Rpower_l; lra.
Qed.

(** The factor 1 - (1 - s^(1/M_Q))^M_Q of the closure. *)
Lemma closure_factor_monotone (cfg : Config) (s s' : R) :
  0 < M_Q cfg -> 0 <= s <= s' -> s' <= 1 ->
  0 <= 1 - np_power (1 - np_power s (M_Q_inverse cfg)) (M_Q cfg)
  /\ 1 - np_power (1 - np_power s (M_Q_inverse cfg)) (M_Q cfg)
     <= 1 - np_power (1 - np_power s' (M_Q_inverse cfg)) (M_Q cfg)
  /\ 1 - np_power (1 - np_power s' (M_Q_inverse cfg)) (M_Q cfg) <= 1.
Proof.
  intros Hm Hs Hs'.
  assert (Hmi : 0 < M_Q_inverse cfg)
    by (unfold M_Q_inverse; apply Rdiv_lt_0_compat; lra).
  pose proof (np_power_nonneg s (M_Q_inverse cfg)) as Ha0.
  pose proof (np_power_monotone s s' (M_Q_inverse cfg) Hs Hmi) as Ha.
  pose proof (np_power_le_1 s' (M_Q_inverse cfg) ltac:(lra) Hmi) as Ha1.
  set (a := np_power s (M_Q_inverse cfg)) in *.
  set (a' := np_power s' (M_Q_inverse cfg)) in *.
  pose proof (np_power_nonneg (1 - a') (M_Q cfg)).
  pose proof (np_power_monotone (1 - a') (1 - a) (M_Q cfg) ltac:(lra) Hm).
  pose proof (np_power_le_1 (1 - a) (M_Q cfg) ltac:(lra) Hm).
  lra.
Qed.

(** X3.  For 0 < M_Q the relative permeability is 0 at saturation 0, 1 at
    saturation 1, lies between 0 and 1 on the saturations between 0 and
    1, and does not decrease when the saturation grows. *)
Theorem relative_permeability_monotone (cfg : Config) (s s' : R) :
  0 < M_Q cfg ->
  0 <= s <= s' -> s' <= 1 ->
  relative_permeability cfg 0 = 0
  /\ relative_permeability cfg 1 = 1
  /\ 0 <= relative_permeability cfg s
  /\ relative_permeability cfg s <= relative_permeability cfg s'
  /\ relative_permeability cfg s' <= 1.
Proof.
  intros Hm Hs Hs'.
  assert (Hl : 0 < LAMBDA) by (unfold LAMBDA; lra).
  split; [|split].
  - unfold relative_permeability. rewrite np_power_zero. ring.
  - unfold relative_permeability.
    rewrite !np_power_one, Rminus_diag, np_power_zero. ring.
  - destruct (closure_factor_monotone cfg s s' Hm Hs Hs') as (Hg0 & Hg & Hg1).
    pose proof (np_power_nonneg s LAMBDA) as Hp0.
    pose proof (np_power_monotone s s' LAMBDA Hs Hl) as Hp.
    pose proof (np_power_le_1 s' LAMBDA ltac:(lra) Hl) as Hp1.
    unfold relative_permeability.
    set (p := np_power s LAMBDA) in *.
    set (p' := np_power s' LAMBDA) in *.
    set (g := 1 - np_power (1 - np_power s (M_Q_inverse cfg)) (M_Q cfg)) in *.
    set (g' := 1 - np_power (1 - np_power s' (M_Q_inverse cfg)) (M_Q cfg))
      in *.
    assert (Hsq : 0 <= g ^ 2 /\ g ^ 2 <= g' ^ 2 /\ g' ^ 2 <= 1)
      by (simpl; repeat split; nra).
    destruct Hsq as (Hq0 & Hq & Hq1).
    set (q := g ^ 2) in *. set (q' := g' ^ 2) in *.
    repeat split; nra.
Qed.

Lemma relative_permeability_monotone_witness :
  relative_permeability column 0 = 0
  /\ relative_permeability column 1 = 1
  /\ 0 <= relative_permeability column 0.01
  /\ relative_permeability column 0.01 <= relative_permeability column 0.5
  /\ relative_permeability column 0.5 <= 1.
Proof.
  apply (relative_permeability_monotone column 0.01 0.5).
  - unfold M_Q; simpl. lra.
  - lra.
  - lra.
Defined.

(** ** The top boundary condition *)

Lemma sum_upto_const (n : nat) (c : R) :
  sum_upto n (fun _ => c) = INR n * c.
Proof.
  induction n as [|n IH]; [simpl; lra|].
  cbn [sum_upto]. rewrite IH, S_INR. lra.
Qed.

(** A sum with a single non-zero term. *)
Lemma sum_upto_single (n a : nat) (f : nat -> R) :
  (a < n)%nat ->
  (forall i, i <> a -> f i = 0) ->
  sum_upto n f = f a.
Proof.
  induction n as [|n IH]; intros Ha Hf; [lia|].
  cbn [sum_upto].
  destruct (Nat.eq_dec a n) as [->|Hne].
  - rewrite sum_upto_zero by (intros i Hi; apply Hf; lia). lra.
  - rewrite IH by (assumption || lia). rewrite (Hf n) by lia. lra.
Qed.

Lemma top_faces_at (cfg : Config) (k y x : nat) :
  st_Q_Z (state_at cfg k) y 0 x = Q_Z_ini cfg y 0 x.
Proof. apply (boundary_faces_at cfg k y 0 x). Qed.

Lemma np_sum_row_top_at (cfg : Config) (k : nat) :
  np_sum_row (N_Y cfg) (N_X cfg) (st_Q_Z (state_at cfg k)) 0
  = np_sum_row (N_Y cfg) (N_X cfg) (Q_Z_ini cfg) 0.
Proof.
  unfold np_sum_row.
  apply sum_upto_ext; intros y _. apply sum_upto_ext; intros x _.
  apply top_faces_at.
Qed.

(** X4.  With the flux over the whole top boundary (FLUX_FULL and not
    FLUX_MIDDLE), every top face carries Q0 at every iteration, and the
    inflow the report expects after k iterations is k SM N_Y N_X Q0. *)
Theorem full_top_flux (cfg : Config) (k y x : nat) :
  FLUX_FULL cfg = true -> FLUX_MIDDLE cfg = false ->
  st_Q_Z (state_at cfg k) y 0 x = Q0 cfg
  /\ flowed_in_should cfg k (state_at cfg k)
     = INR k * SM * (INR (N_Y cfg) * INR (N_X cfg) * Q0 cfg).
Proof.
  intros HF HM.
  assert (Hini : forall a b, Q_Z_ini cfg a 0 b = Q0 cfg)
    by (intros; unfold Q_Z_ini; rewrite HF, HM; reflexivity).
  split; [rewrite top_faces_at; apply Hini|].
  unfold flowed_in_should. rewrite np_sum_row_top_at.
  unfold np_sum_row.
  rewrite (sum_upto_ext _ _ (fun _ => INR (N_X cfg) * Q0 cfg)).
  - rewrite sum_upto_const. ring.
  - intros a _.
    rewrite (sum_upto_ext _ _ (fun _ => Q0 cfg)) by (intros; apply Hini).
    apply sum_upto_const.
Qed.

Lemma full_top_flux_witness :
  st_Q_Z (state_at main_sample (1280 * 1000)) 39 0 39 = 8e-5
  /\ flowed_in_should main_sample (64 * 1000)
       (state_at main_sample (64 * 1000))
     = INR (64 * 1000) * SM * (INR 40 * INR 40 * 8e-5).
Proof.
  split.
  - apply (full_top_flux main_sample (1280 * 1000) 39 39 eq_refl eq_refl).
  - apply (full_top_flux main_sample (64 * 1000) 0 0 eq_refl eq_refl).
Defined.

(** X5.  With the flags of the flux in the middle (FLUX_MIDDLE and not
    FLUX_FULL) the program writes its flux to an empty slice: no top face
    carries a flux at any iteration, the inflow the report expects is 0,
    and the relative error it prints is nan or an infinity. *)
Theorem middle_top_flux_empty (cfg : Config) (k y x : nat) :
  FLUX_FULL cfg = false -> FLUX_MIDDLE cfg = true ->
  st_Q_Z (state_at cfg k) y 0 x = 0
  /\ flowed_in_should cfg k (state_at cfg k) = 0
  /\ (error_rel cfg k (state_at cfg k) = NaN
      \/ error_rel cfg k (state_at cfg k) = Inf).
Proof.
  intros HF HM.
  assert (Hini : forall a b, Q_Z_ini cfg a 0 b = 0)
    by (intros; unfold Q_Z_ini; rewrite HF, HM; reflexivity).
  assert (H0 : flowed_in_should cfg k (state_at cfg k) = 0).
  { unfold flowed_in_should. rewrite np_sum_row_top_at.
    unfold np_sum_row.
    rewrite sum_upto_zero; [ring|].
    intros a _. apply sum_upto_zero. intros b _. apply Hini. }
  split; [rewrite top_faces_at; apply Hini|]. split; [exact H0|].
  unfold error_rel, np_divide. rewrite H0.
  destruct (Req_EM_T 0 0); [|contradiction].
  destruct (Req_EM_T _ 0); [left | right]; reflexivity.
Qed.

Lemma middle_top_flux_empty_witness :
  st_Q_Z (state_at middle_cell (64 * 1000)) 0 0 0 = 0
  /\ flowed_in_should middle_cell (64 * 1000)
       (state_at middle_cell (64 * 1000)) = 0
  /\ (error_rel middle_cell (64 * 1000) (state_at middle_cell (64 * 1000))
      = NaN
      \/ error_rel middle_cell (64 * 1000)
           (state_at middle_cell (64 * 1000)) = Inf).
Proof.
  apply (middle_top_flux_empty middle_cell (64 * 1000) 0 0 eq_refl eq_refl).
Defined.

Lemma round_half_in_range (n : nat) : (1 <= n)%nat -> (round_half n < n)%nat.
Proof.
  intros Hn. unfold round_half.
  pose proof (Nat.div_mod_eq n 2) as Hdiv.
  pose proof (Nat.mod_upper_bound n 2 ltac:(lia)) as Hmod.
  destruct (Nat.even n) eqn:En.
  - apply Nat.even_spec in En as [m Hm]. lia.
  - assert (Hodd : (n mod 2 = 1)%nat).
    { rewrite <- Nat.negb_odd in En. apply negb_false_iff in En.
      apply Nat.odd_spec in En as [m Hm]. lia. }
    destruct (Nat.even (n / 2)) eqn:Eq; [lia|].
    destruct (Nat.eq_dec (n / 2) 0) as [H0|H0]; [|lia].
    rewrite H0 in Eq. discriminate.
Qed.

(** X6.  In the remaining mode (both flags off, or both on) only the top
    face of the block (round(N_Y / 2), round(N_X / 2)) carries Q0; on a
    grid with at least one block along y and x that block lies inside the
    grid, and the top faces sum to Q0 at every iteration. *)
Theorem single_top_flux (cfg : Config) (k y x : nat) :
  FLUX_FULL cfg = FLUX_MIDDLE cfg ->
  (1 <= N_Y cfg)%nat -> (1 <= N_X cfg)%nat ->
  (round_half (N_Y cfg) < N_Y cfg)%nat
  /\ (round_half (N_X cfg) < N_X cfg)%nat
  /\ st_Q_Z (state_at cfg k) (round_half (N_Y cfg)) 0
       (round_half (N_X cfg)) = Q0 cfg
  /\ (y <> round_half (N_Y cfg) \/ x <> round_half (N_X cfg) ->
      st_Q_Z (state_at cfg k) y 0 x = 0)
  /\ np_sum_row (N_Y cfg) (N_X cfg) (st_Q_Z (state_at cfg k)) 0 = Q0 cfg.
Proof.
  intros Hflags HY HX.
  pose proof (round_half_in_range _ HY) as Hy.
  pose proof (round_half_in_range _ HX) as Hx.
  assert (Hini : forall a b,
             Q_Z_ini cfg a 0 b
             = if (a =? round_half (N_Y cfg))%nat
                  && (b =? round_half (N_X cfg))%nat
               then Q0 cfg else 0).
  { intros a b. unfold Q_Z_ini. rewrite Hflags.
    destruct (FLUX_MIDDLE cfg); cbn [andb negb Nat.eqb];
      rewrite andb_true_r; reflexivity. }
  assert (Hmid : Q_Z_ini cfg (round_half (N_Y cfg)) 0 (round_half (N_X cfg))
                 = Q0 cfg)
    by (rewrite Hini, !Nat.eqb_refl; reflexivity).
  assert (Hoff : forall a b,
             a <> round_half (N_Y cfg) \/ b <> round_half (N_X cfg) ->
             Q_Z_ini cfg a 0 b = 0).
  { intros a b Hab. rewrite Hini.
    destruct (Nat.eqb_spec a (round_half (N_Y cfg)));
      destruct (Nat.eqb_spec b (round_half (N_X cfg)));
      cbn [andb]; try reflexivity.
    destruct Hab; contradiction. }
  repeat split; try assumption.
  - rewrite top_faces_at. exact Hmid.
  - intros Hab. rewrite top_faces_at. apply Hoff; assumption.
  - rewrite np_sum_row_top_at. unfold np_sum_row.
    rewrite (sum_upto_single (N_Y cfg) (round_half (N_Y cfg))).
    + rewrite (sum_upto_single (N_X cfg) (round_half (N_X cfg)));
        [exact Hmid | assumption |].
      intros b Hb. apply Hoff. right; assumption.
    + assumption.
    + intros a Ha. apply sum_upto_zero. intros b _.
      apply Hoff. left; assumption.
Qed.

Lemma single_top_flux_witness :
  (round_half (N_Y main_single) < N_Y main_single)%nat
  /\ (round_half (N_X main_single) < N_X main_single)%nat
  /\ st_Q_Z (state_at main_single (1280 * 1000)) 20 0 20 = 8e-5
  /\ st_Q_Z (state_at main_single (1280 * 1000)) 20 0 21 = 0
  /\ np_sum_row 40 40 (st_Q_Z (state_at main_single (1280 * 1000))) 0 = 8e-5.
Proof.
  destruct (single_top_flux main_single (1280 * 1000) 20 21 eq_refl
              ltac:(simpl; lia) ltac:(simpl; lia))
    as (H1 & H2 & H3 & H4 & H5).
  split; [exact H1|]. split; [exact H2|]. split; [exact H3|].
  split; [|exact H5].
  apply H4. right. cbv. lia.
Defined.

(** ** The direction of the fluxes *)

Lemma MU_INVERSE_sqrt_nonneg (a b c d : R) :
  0 <= MU_INVERSE * sqrt a * sqrt b * sqrt c * sqrt d.
Proof.
  pose proof MU_INVERSE_pos.
  pose proof (sqrt_pos a). pose proof (sqrt_pos b).
  pose proof (sqrt_pos c). pose proof (sqrt_pos d).
  assert (0 <= MU_INVERSE * sqrt a) by (apply Rmult_le_pos; lra).
  apply Rmult_le_pos; [apply Rmult_le_pos; [apply Rmult_le_pos|]|]; lra.
Qed.

Lemma pressure_drop_sign (d : R) :
  (0 <= d -> - (d / dL) <= 0) /\ (d <= 0 -> 0 <= - (d / dL)).
Proof.
  pose proof dL_pos as HdL.
  assert (Hi : 0 < / dL) by (apply Rinv_0_lt_compat; assumption).
  unfold Rdiv. split; intros; nra.
Qed.

Lemma gravity_drop_sign (d : R) :
  (d <= RHO_G * dL -> 0 <= RHO_G - d / dL)
  /\ (RHO_G * dL <= d -> RHO_G - d / dL <= 0).
Proof.
  pose proof dL_pos as HdL.
  assert (Hi : 0 < / dL) by (apply Rinv_0_lt_compat; assumption).
  assert (Hg : RHO_G = RHO_G * dL * / dL) by (field; lra).
  unfold Rdiv. split; intros H; rewrite Hg at 1; nra.
Qed.

(** X7.  At the end of every iteration the flux through an interior
    lateral face runs from the higher pressure to the lower one: it is
    not positive when the pressure rises towards the greater index, not
    negative when it falls (so it vanishes between equal pressures).
    Through an interior z-face it runs downwards as long as the pressure
    rises with depth by at most RHO_G dL, and upwards beyond. *)
Theorem flux_follows_pressure (cfg : Config) (k y z x : nat) :
  let st := state_at cfg (S k) in
  ((x + 1 < N_X cfg)%nat ->
   (st_P st y z x <= st_P st y z (x + 1) -> st_Q_X st y z (x + 1) <= 0)
   /\ (st_P st y z (x + 1) <= st_P st y z x -> 0 <= st_Q_X st y z (x + 1)))
  /\ ((y + 1 < N_Y cfg)%nat ->
      (st_P st y z x <= st_P st (y + 1) z x -> st_Q_Y st (y + 1) z x <= 0)
      /\ (st_P st (y + 1) z x <= st_P st y z x
          -> 0 <= st_Q_Y st (y + 1) z x))
  /\ ((z + 1 < N_Z cfg)%nat ->
      (st_P st y (z + 1) x - st_P st y z x <= RHO_G * dL
       -> 0 <= st_Q_Z st y (z + 1) x)
      /\ (RHO_G * dL <= st_P st y (z + 1) x - st_P st y z x
          -> st_Q_Z st y (z + 1) x <= 0)).
Proof.
  cbn [state_at step st_P st_Q_X st_Q_Y st_Q_Z].
  set (st := state_at cfg k).
  split; [|split]; intros Hface.
  - rewrite Q_X_new_interior by assumption.
    unfold k_rnd_q1, k_rnd_sqrt, perm_sqrt.
    pose proof (MU_INVERSE_sqrt_nonneg (k_rnd cfg y z x)
                  (k_rnd cfg y z (x + 1)) (perm cfg st y z x)
                  (perm cfg st y z (x + 1))) as Hc.
    destruct (pressure_drop_sign
                (P_new cfg st y z (x + 1) - P_new cfg st y z x)) as [Hd Hu].
    split; intros H; [specialize (Hd ltac:(lra)) | specialize (Hu ltac:(lra))];
      nra.
  - rewrite Q_Y_new_interior by assumption.
    unfold k_rnd_q3, k_rnd_sqrt, perm_sqrt.
    pose proof (MU_INVERSE_sqrt_nonneg (k_rnd cfg y z x)
                  (k_rnd cfg (y + 1) z x) (perm cfg st y z x)
                  (perm cfg st (y + 1) z x)) as Hc.
    destruct (pressure_drop_sign
                (P_new cfg st (y + 1) z x - P_new cfg st y z x)) as [Hd Hu].
    split; intros H; [specialize (Hd ltac:(lra)) | specialize (Hu ltac:(lra))];
      nra.
  - rewrite Q_Z_new_interior by assumption.
    unfold k_rnd_q2, k_rnd_sqrt, perm_sqrt.
    pose proof (MU_INVERSE_sqrt_nonneg (k_rnd cfg y z x)
                  (k_rnd cfg y (z + 1) x) (perm cfg st y z x)
                  (perm cfg st y (z + 1) x)) as Hc.
    destruct (gravity_drop_sign
                (P_new cfg st y (z + 1) x - P_new cfg st y z x)) as [Hd Hu].
    split; intros H; [specialize (Hd H) | specialize (Hu H)]; nra.
Qed.

Lemma flux_follows_pressure_witness :
  0 <= st_Q_Z (state_at still_column 1) 0 1 0.
Proof.
  destruct (flux_follows_pressure still_column 0 0 0 0) as (_ & _ & HZ).
  apply HZ; [simpl; lia|].
  rewrite !(first_step_P still_column eq_refl).
  unfold P_ini, S0_ini, dL. rewrite RHO_G_value. lra.
Defined.

Lemma bound_flux_new_nonneg (cfg : Config) (st : State) (y x : nat) :
  - (RHO_G * dL) <= P_new cfg st y (N_Z cfg - 1) x ->
  0 <= bound_flux_new cfg st y 0 x.
Proof.
  intros Hp. unfold bound_flux_new. cbn [Nat.eqb].
  pose proof (k_rnd_nonneg cfg y (N_Z cfg - 1) x) as Hk.
  pose proof (relative_permeability_nonneg cfg
                (S_new cfg st y (N_Z cfg - 1) x)) as Hr.
  pose proof MU_INVERSE_pos as Hmu.
  unfold perm.
  destruct (gravity_drop_sign (0 - P_new cfg st y (N_Z cfg - 1) x))
    as [Hg _].
  specialize (Hg ltac:(lra)).
  assert (0 <= MU_INVERSE * k_rnd cfg y (N_Z cfg - 1) x
               * relative_permeability cfg (S_new cfg st y (N_Z cfg - 1) x))
    by (apply Rmult_le_pos; [apply Rmult_le_pos|]; lra).
  nra.
Qed.

(** X8.  The boundary flux computed at the end of an iteration is not
    positive when the pressure of the bottom block is at most - RHO_G dL
    and not negative when it is at least - RHO_G dL. *)
Theorem bound_flux_sign (cfg : Config) (k y x : nat) :
  let st := state_at cfg (S k) in
  (st_P st y (N_Z cfg - 1) x <= - (RHO_G * dL)
   -> st_bound_flux st y 0 x <= 0)
  /\ (- (RHO_G * dL) <= st_P st y (N_Z cfg - 1) x
      -> 0 <= st_bound_flux st y 0 x).
Proof.
  cbn [state_at step st_P st_bound_flux]. split; intros H.
  - apply bound_flux_new_nonpos; assumption.
  - apply bound_flux_new_nonneg; assumption.
Qed.

Lemma bound_flux_sign_witness :
  st_bound_flux (state_at still_cell 1) 0 0 0 <= 0
  /\ 0 <= st_bound_flux (state_at coarse_cell 1) 0 0 0.
Proof.
  split.
  - apply (proj1 (bound_flux_sign still_cell 0 0 0)).
    rewrite (first_step_P still_cell eq_refl).
    apply still_cell_pressure.
  - apply (proj2 (bound_flux_sign coarse_cell 0 0 0)).
    rewrite (first_step_P coarse_cell eq_refl).
    unfold P_ini, S0_ini; simpl. unfold curve_shallow, dL.
    rewrite RHO_G_value. lra.
Defined.

(** ** The pressure between the two branches *)

(** X9.  In every step and at every cell: a wetting cell whose pressure
    is at most the wetting branch (at the old saturation) gets a pressure
    between the old one and that branch; a draining cell whose pressure
    is at least the draining branch gets a pressure between that branch
    and the old one; a cell whose saturation does not change keeps its
    pressure. *)
Theorem pressure_follows_saturation
  (cfg : Config) (st : State) (y z x : nat) :
  let S_old := st_S st y z x in
  let S_upd := st_S (step cfg st) y z x in
  let P_old := st_P st y z x in
  let P_upd := st_P (step cfg st) y z x in
  (S_old < S_upd -> P_old <= retention_curve_wet cfg S_old ->
   P_old <= P_upd <= retention_curve_wet cfg S_old)
  /\ (S_upd < S_old -> retention_curve_drain cfg S_old <= P_old ->
      retention_curve_drain cfg S_old <= P_upd <= P_old)
  /\ (S_upd = S_old -> P_upd = P_old).
Proof.
  cbn [step st_S st_P]. pose proof Kps_pos as HK.
  split; [|split].
  - intros Hw Hp. rewrite P_new_wetting by assumption.
    unfold P_relaxed, P_wet.
    assert (0 < Kps * (S_new cfg st y z x - st_S st y z x)) by nra.
    split; minmax.
  - intros Hd Hp. rewrite P_new_draining by assumption.
    unfold P_relaxed, P_drain.
    assert (Kps * (S_new cfg st y z x - st_S st y z x) < 0) by nra.
    split; minmax.
  - intros He. apply P_new_unchanged; assumption.
Qed.

Lemma pressure_follows_saturation_witness :
  (st_P (init column) 0 0 0 <= st_P (step column (init column)) 0 0 0
   <= retention_curve_wet column (st_S (init column) 0 0 0))
  /\ (retention_curve_drain still_column
        (st_S (state_at still_column 1) 0 0 0)
      <= st_P (step still_column (state_at still_column 1)) 0 0 0
      <= st_P (state_at still_column 1) 0 0 0)
  /\ st_P (step column (init column)) 0 1 0 = st_P (init column) 0 1 0.
Proof.
  split; [|split].
  - apply (proj1 (pressure_follows_saturation column (init column) 0 0 0)).
    + apply column_upper_cell_wets.
    + cbn [init st_P st_S]. unfold P_ini; simpl. lra.
  - apply (proj1 (proj2 (pressure_follows_saturation still_column
                           (state_at still_column 1) 0 0 0))).
    + apply still_column_upper_cell_drains.
    + rewrite (first_step_P still_column eq_refl),
        (first_step_S still_column eq_refl).
      unfold P_ini, S0_ini; simpl. unfold curve_deep. lra.
  - apply (proj2 (proj2 (pressure_follows_saturation column
                           (init column) 0 1 0))).
    run_cells. minmax.
Defined.

Lemma P_new_in_band (cfg : Config) (st : State) (y z x : nat) (lo hi : R) :
  (forall s, lo <= retention_curve_wet cfg s <= hi) ->
  (forall s, lo <= retention_curve_drain cfg s <= hi) ->
  lo <= st_P st y z x <= hi ->
  lo <= P_new cfg st y z x <= hi.
Proof.
  intros Hw Hd Hp. pose proof Kps_pos as HK.
  specialize (Hw (st_S st y z x)). specialize (Hd (st_S st y z x)).
  destruct (Rtotal_order (st_S st y z x) (S_new cfg st y z x))
    as [Hlt|[He|Hgt]].
  - rewrite P_new_wetting by assumption. unfold P_relaxed, P_wet.
    assert (0 < Kps * (S_new cfg st y z x - st_S st y z x)) by nra.
    split; minmax.
  - rewrite P_new_unchanged by (symmetry; assumption). assumption.
  - rewrite P_new_draining by assumption. unfold P_relaxed, P_drain.
    assert (Kps * (S_new cfg st y z x - st_S st y z x) < 0) by nra.
    split; minmax.
Qed.

(** X10.  When both retention curves take their values between two
    bounds, the pressure of every cell stays between these bounds at
    every iteration. *)
Theorem pressure_stays_in_band (cfg : Config) (lo hi : R) (k y z x : nat) :
  (forall s, lo <= retention_curve_wet cfg s <= hi) ->
  (forall s, lo <= retention_curve_drain cfg s <= hi) ->
  lo <= st_P (state_at cfg k) y z x <= hi.
Proof.
  intros Hw Hd. induction k as [|k IH].
  - cbn [state_at init st_P]. unfold P_ini.
    destruct (WHICH_BRANCH_wet cfg); [apply Hw | apply Hd].
  - cbn [state_at step st_P]. apply P_new_in_band; assumption.
Qed.

Lemma curve_capped_band (s : R) : -2000 <= curve_capped s <= -1000.
Proof. unfold curve_capped. split; minmax. Qed.

Lemma pressure_stays_in_band_witness :
  -2000 <= st_P (state_at capped_column 2) 0 1 0 <= -1000.
Proof.
  apply (pressure_stays_in_band capped_column (-2000) (-1000) 2 0 1 0);
    intros s; apply curve_capped_band.
Defined.

(** ** The outcome of the loop *)






(** ** More on conservation *)



(** X13.  At every iteration the array Q of the divergences of the cells
    sums to the sum of the fluxes through the top faces: what leaves a
    cell through an interior face enters its neighbour, and the other
    faces on the boundary are closed. *)
Theorem divergence_sums_to_top_flux (cfg : Config) (k : nat) :
  (1 <= N_Z cfg)%nat ->
  np_sum (N_Y cfg) (N_Z cfg) (N_X cfg) (st_Q (state_at cfg (S k)))
  = np_sum_row (N_Y cfg) (N_X cfg) (st_Q_Z (init cfg)) 0.
Proof.
  intros HN. cbn [state_at step st_Q init st_Q_Z].
  rewrite np_sum_Q_new by (apply closed_sides_at; assumption).
  apply np_sum_row_top_at.
Qed.

Lemma divergence_sums_to_top_flux_witness :
  np_sum 40 120 40 (st_Q (state_at main_sample (1280 * 1000)))
  = np_sum_row 40 40 (st_Q_Z (init main_sample)) 0.
Proof.
  apply (divergence_sums_to_top_flux main_sample (1280 * 1000 - 1)).
  simpl; lia.
Defined.








(** ** Reports and snapshots *)

Lemma dt_value : dt = 1 / 64000.
Proof. unfold dt, dx_PAR, dtBase, dL. lra. Qed.

Lemma checkpoint_at_multiple (k m : nat) :
  INR k = 64000 * INR m -> checkpoint k = true.
Proof.
  intros Hm. unfold checkpoint, py_mod. rewrite PRINT_MODULO_value.
  destruct (Req_EM_T _ 0) as [H0|Hne]; [reflexivity|].
  exfalso. apply Hne.
  replace (INR k / 64000) with (INR m) by (rewrite Hm; field).
  rewrite Int_part_INR, <- INR_IZR_INZ. lra.
Qed.

(** X16.  The report is printed exactly in the iterations whose number is
    a multiple of 64000. *)
Theorem checkpoint_multiples (k : nat) :
  checkpoint k = true <-> exists m : nat, INR k = 64000 * INR m.
Proof.
  split; [|intros [m Hm]; apply (checkpoint_at_multiple k m Hm)].
  unfold checkpoint, py_mod. rewrite PRINT_MODULO_value.
  destruct (Req_EM_T _ 0) as [H0|Hne]; [intros _ | discriminate].
  set (q := Int_part (INR k / 64000)) in *.
  assert (Hz : IZR (Z.of_nat k) = IZR (q * 64000)).
  { rewrite mult_IZR, <- INR_IZR_INZ. lra. }
  apply eq_IZR in Hz.
  exists (Z.to_nat q).
  rewrite !INR_IZR_INZ, Z2Nat.id by lia.
  rewrite Hz, mult_IZR. lra.
Qed.

Lemma snapshot_index_multiple (k m : nat) :
  INR k = 64000 * INR m -> snapshot_index k = (Z.of_nat m - 1)%Z.
Proof.
  intros Hk. unfold snapshot_index, py_round.
  replace (INR k * dt) with (INR m) by (rewrite Hk, dt_value; field).
  unfold frac_part. rewrite Int_part_INR, <- INR_IZR_INZ.
  destruct (Rlt_dec (INR m - INR m) (1 / 2)) as [_|Hn]; [reflexivity|].
  exfalso; apply Hn; lra.
Qed.

(** X17.  In the iteration 64000 m, the m-th with a report, the arrays
    are saved under the index m - 1. *)
Theorem snapshot_index_at_report (k m : nat) :
  INR k = 64000 * INR m ->
  checkpoint k = true /\ snapshot_index k = (Z.of_nat m - 1)%Z.
Proof.
  intros Hk. split;
    [apply (checkpoint_at_multiple k m Hk)
    | apply (snapshot_index_multiple k m Hk)].
Qed.

Lemma INR_report (m : nat) : INR (m * (64 * 1000)) = 64000 * INR m.
Proof.
  rewrite !mult_INR, !INR_IZR_INZ. simpl Z.of_nat. lra.
Qed.

Lemma snapshot_index_at_report_witness :
  checkpoint (20 * (64 * 1000)) = true
  /\ snapshot_index (20 * (64 * 1000)) = 19%Z.
Proof.
  apply (snapshot_index_at_report (20 * (64 * 1000)) 20).
  apply INR_report.
Defined.

(** X18.  With the values of the program (REALTIME = 20, 1280000
    iterations), for every index t the time plot loads (t in
    range(REALTIME)) there is an iteration of the run with a report in
    which the arrays are saved under the index t. *)
Theorem snapshots_cover_time_plot (t : nat) :
  (t < REALTIME)%nat ->
  exists k, (1 <= k <= iteration main_sample)%nat
            /\ checkpoint k = true
            /\ snapshot_index k = Z.of_nat t.
Proof.
  intros Ht. unfold REALTIME in Ht.
  exists ((t + 1) * (64 * 1000))%nat.
  pose proof (INR_report (t + 1)) as HI.
  split; [cbn [iteration main_sample main_config]; lia|]. split.
  - apply (checkpoint_at_multiple _ (t + 1) HI).
  - rewrite (snapshot_index_multiple _ (t + 1) HI). lia.
Qed.

Lemma snapshots_cover_time_plot_witness :
  exists k, (1 <= k <= iteration main_sample)%nat
            /\ checkpoint k = true
            /\ snapshot_index k = Z.of_nat 19.
Proof.
  apply (snapshots_cover_time_plot 19). unfold REALTIME. lia.
Defined.
